(** * ShortLink: the link shortener of [app/main.py] and [app/models.py]

    A shallow embedding of the FastAPI handlers.  The two tables of
    [models.py] are lists of rows; a handler is a computation in a small
    state-and-exception monad over a [World] that holds the database, the
    wall clock read by [datetime.utcnow()] and the entropy read by
    [random.choices].  An exception that leaves a handler is turned into
    the HTTP response FastAPI sends for it. *)

From Stdlib Require Import ZArith List String Ascii Bool Arith Lia.
Import ListNotations.

Open Scope string_scope.
Open Scope Z_scope.

(** ** Python values that cross the HTTP boundary *)

(** A naive [datetime] is a point on one time line: microseconds since the
    epoch.  [<] on naive datetimes is [Z.lt]. *)
Definition datetime := Z.

(** [timedelta(days=n)] in microseconds. *)
Definition timedelta_days (n : Z) : Z := n * 86400000000.

(** What a handler hands to FastAPI's JSON encoder. *)
#[local] Unset Elimination Schemes.
Inductive JSON :=
| JNull
| JInt (n : Z)
| JStr (s : string)
| JDateTime (t : datetime)
| JArr (items : list JSON)
| JObj (fields : list (string * JSON)).
#[local] Set Elimination Schemes.

Definition JOpt {A} (inj : A -> JSON) (o : option A) : JSON :=
  match o with Some a => inj a | None => JNull end.

(** Exceptions raised in the handlers or below them. *)
Inductive Exn :=
| HTTPException (status_code : Z) (detail : string)
| AttributeError (msg : string)
| NameError (name : string)
| TypeError
| ValueError
| MultipleResultsFound
| IntegrityError.

(** ** [app/models.py] *)

Module User.
Record t := mk {
  id : Z;
  email : string;
  hashed_password : string
}.
End User.

Module ShortenedLink.
(** [click_count] and [created_at] carry a column default and are never
    written as NULL by the application, so they are plain values;
    [expires_at], [last_used_at] and [user_id] are nullable and read back
    as [None]. *)
Record t := mk {
  id : Z;
  original_url : string;
  short_code : string;
  created_at : datetime;
  expires_at : option datetime;
  click_count : Z;
  last_used_at : option datetime;
  user_id : option Z
}.

Definition with_original_url (u : string) (l : t) : t :=
  mk (id l) u (short_code l) (created_at l) (expires_at l)
     (click_count l) (last_used_at l) (user_id l).

Definition with_visit (n : Z) (at_ : datetime) (l : t) : t :=
  mk (id l) (original_url l) (short_code l) (created_at l) (expires_at l)
     n (Some at_) (user_id l).
End ShortenedLink.

(** The database: the [users] and [shortened_links] tables. *)
Record DB := mkDB {
  users : list User.t;
  shortened_links : list ShortenedLink.t
}.

(** ** The world a handler runs in *)

(** [clock k] is what the [k]-th call of [datetime.utcnow()] returns and
    [entropy k] the [k]-th draw of the random generator; the two counters
    say how many have been consumed. *)
Record World := mkWorld {
  db : DB;
  clock : nat -> datetime;
  clock_reads : nat;
  entropy : nat -> nat;
  entropy_draws : nat
}.

Definition set_db (d : DB) (w : World) : World :=
  mkWorld d (clock w) (clock_reads w) (entropy w) (entropy_draws w).

(** State and exceptions.  A raised exception keeps the world of the point
    where it was raised; every handler below raises before its only
    [commit], so nothing uncommitted is ever dropped. *)
Definition M (A : Type) : Type := World -> (Exn + A) * World.

Definition ret {A} (a : A) : M A := fun w => (inr a, w).

Definition raise {A} (e : Exn) : M A := fun w => (inl e, w).

Definition bind {A B} (m : M A) (k : A -> M B) : M B :=
  fun w =>
    match m w with
    | (inl e, w') => (inl e, w')
    | (inr a, w') => k a w'
    end.

Declare Scope py_scope.
Delimit Scope py_scope with py.
Notation "x <- m ;; k" := (bind m (fun x => k))
  (at level 61, m at next level, right associativity) : py_scope.
Notation "m ;;; k" := (bind m (fun _ => k))
  (at level 61, right associativity) : py_scope.
Open Scope py_scope.

Definition get_db : M DB := fun w => (inr (db w), w).

Definition put_db (d : DB) : M unit := fun w => (inr tt, set_db d w).

(** [datetime.utcnow()] *)
Definition utcnow : M datetime :=
  fun w => (inr (clock w (clock_reads w)),
            mkWorld (db w) (clock w) (S (clock_reads w))
                    (entropy w) (entropy_draws w)).

(** [floor(random() * n)]: an index below [n], one draw of entropy. *)
Definition randbelow (n : nat) : M nat :=
  fun w => (inr (Nat.modulo (entropy w (entropy_draws w)) n),
            mkWorld (db w) (clock w) (clock_reads w)
                    (entropy w) (S (entropy_draws w))).

(** ** Strings *)

Definition ascii_lowercase := "abcdefghijklmnopqrstuvwxyz".
Definition ascii_uppercase := "ABCDEFGHIJKLMNOPQRSTUVWXYZ".
Definition ascii_letters := ascii_lowercase ++ ascii_uppercase.
Definition digits := "0123456789".

(** [s[i]] for an index in range (the space stands for IndexError, which
    [randbelow] never causes on a non-empty population). *)
Definition char_at (s : string) (i : nat) : ascii :=
  match String.get i s with Some c => c | None => " "%char end.

Fixpoint join_chars (cs : list ascii) : string :=
  match cs with
  | [] => ""
  | c :: cs' => String c (join_chars cs')
  end.

Fixpoint chars_of (s : string) : list ascii :=
  match s with
  | EmptyString => []
  | String c s' => c :: chars_of s'
  end.

(** [str.partition(" ")] *)
Fixpoint partition_space (s : string) : string * string * string :=
  match s with
  | EmptyString => ("", "", "")
  | String c s' =>
      if Ascii.eqb c " " then ("", " ", s')
      else let '(a, sep, b) := partition_space s' in (String c a, sep, b)
  end.

Definition lower_char (c : ascii) : ascii :=
  let n := nat_of_ascii c in
  if (Nat.leb 65 n && Nat.leb n 90)%bool then ascii_of_nat (n + 32) else c.

(** [str.lower()] on the ASCII letters; no other character of a header
    value lowers to a letter of ["bearer"]. *)
Fixpoint lower (s : string) : string :=
  match s with
  | EmptyString => ""
  | String c s' => String (lower_char c) (lower s')
  end.

(** [str.rstrip("/")] *)
Fixpoint rstrip_slash (s : string) : string :=
  match s with
  | EmptyString => ""
  | String c s' =>
      match rstrip_slash s' with
      | EmptyString => if Ascii.eqb c "/" then "" else String c ""
      | r => String c r
      end
  end.

(** Truthiness of an optional string: [None] and [""] are falsy. *)
Definition truthy_str (o : option string) : option string :=
  match o with
  | Some EmptyString => None
  | other => other
  end.

(** ** Queries

    [select(T).where(...)] keeps the rows that satisfy the condition, in
    table order. *)

Definition select_where {A} (cond : A -> bool) (rows : list A) : list A :=
  filter cond rows.

Definition short_code_is (code : string) (l : ShortenedLink.t) : bool :=
  String.eqb (ShortenedLink.short_code l) code.

(** [Result.scalar_one_or_none()] *)
Definition scalar_one_or_none {A} (rows : list A) : M (option A) :=
  match rows with
  | [] => ret None
  | [r] => ret (Some r)
  | _ :: _ :: _ => raise MultipleResultsFound
  end.

(** [Result.scalar()]: the first row, if any. *)
Definition scalar {A} (rows : list A) : option A := hd_error rows.

(** The key the database gives to a new row: above every key in use. *)
Definition next_id (ids : list Z) : Z := 1 + fold_right Z.max 0 ids.

Definition link_ids (rows : list ShortenedLink.t) : list Z :=
  map ShortenedLink.id rows.

Definition link_codes (rows : list ShortenedLink.t) : list string :=
  map ShortenedLink.short_code rows.

(** [select(ShortenedLink).where(ShortenedLink.short_code == code)] *)
Definition links_by_code (code : string) : M (list ShortenedLink.t) :=
  d <- get_db ;;
  ret (select_where (short_code_is code) (shortened_links d)).

(** [db.add(ShortenedLink(...)); db.commit(); db.refresh(...)]: the INSERT
    fills [id], [created_at] (default [datetime.utcnow]) and [click_count]
    (default 0); the UNIQUE constraint on [short_code] rejects a duplicate. *)
Definition insert_link (original_url short_code : string)
    (expires_at : option datetime) (user_id : option Z)
    : M ShortenedLink.t :=
  created <- utcnow ;;
  d <- get_db ;;
  if existsb (short_code_is short_code) (shortened_links d)
  then raise IntegrityError
  else
    let row := ShortenedLink.mk (next_id (link_ids (shortened_links d)))
                 original_url short_code created expires_at 0 None user_id in
    put_db (mkDB (users d) (shortened_links d ++ [row])) ;;;
    ret row.

(** [db.commit()] after attributes of a loaded row were assigned: an UPDATE
    of the row with that primary key. *)
Definition update_link (key : Z) (f : ShortenedLink.t -> ShortenedLink.t)
    : M unit :=
  d <- get_db ;;
  put_db (mkDB (users d)
            (map (fun r => if ShortenedLink.id r =? key then f r else r)
                 (shortened_links d))).

(** [db.delete(link); db.commit()] *)
Definition delete_link (key : Z) : M unit :=
  d <- get_db ;;
  put_db (mkDB (users d)
            (filter (fun r => negb (ShortenedLink.id r =? key))
                    (shortened_links d))).

(** [delete(ShortenedLink).where(ShortenedLink.last_used_at < threshold)]:
    a NULL [last_used_at] compares as unknown and the row stays. *)
Definition last_used_before (threshold : datetime) (l : ShortenedLink.t)
    : bool :=
  match ShortenedLink.last_used_at l with
  | Some t => t <? threshold
  | None => false
  end.

Definition delete_links_where (cond : ShortenedLink.t -> bool) : M unit :=
  d <- get_db ;;
  put_db (mkDB (users d)
            (filter (fun r => negb (cond r)) (shortened_links d))).

(** ** What the handlers return and what goes on the wire *)

Inductive Reply :=
| Body (content : JSON)
| RedirectResponse (url : string).

Inductive Response :=
| HTTP (status : Z) (content : JSON)
| Redirect (status : Z) (location : string)
| InternalServerError.

(** FastAPI around a handler: a returned value is a 200 (a redirect a 307),
    an [HTTPException] its status with [{"detail": ...}], anything else that
    escapes a 500. *)
Definition respond (r : Exn + Reply) : Response :=
  match r with
  | inr (Body j) => HTTP 200 j
  | inr (RedirectResponse url) => Redirect 307 url
  | inl (HTTPException status detail) => HTTP status (JObj [("detail", JStr detail)])
  | inl _ => InternalServerError
  end.

Definition serve (handler : M Reply) (w : World) : Response * World :=
  let (r, w') := handler w in (respond r, w').

(** ** Module constants *)

Definition INACTIVITY_DAYS_LIMIT : Z := 7.

(** The integer names bound at module level of [main.py]; reading any other
    name raises [NameError]. *)
Definition module_globals : list (string * Z) :=
  [("INACTIVITY_DAYS_LIMIT", INACTIVITY_DAYS_LIMIT)].

Fixpoint lookup_name (name : string) (env : list (string * Z)) : option Z :=
  match env with
  | [] => None
  | (k, v) :: env' => if String.eqb k name then Some v else lookup_name name env'
  end.

Definition load_global (env : list (string * Z)) (name : string) : M Z :=
  match lookup_name name env with
  | Some v => ret v
  | None => raise (NameError name)
  end.

(** ** Collaborators that are not part of the handlers *)

(** [app.auth]: password hashing and the access tokens.  A decoded payload
    is a dictionary of claims. *)
Class Auth := {
  hash_password : string -> string;
  verify_password : string -> string -> bool;
  create_access_token : list (string * string) -> string;
  decode_access_token : string -> option (list (string * string))
}.

(** The builtins [int] and [str] between a key and the ["sub"] claim;
    [int_of_str] is [None] where [int] raises [ValueError]. *)
Class Builtins := {
  int_of_str : string -> option Z;
  str_of_int : Z -> string
}.

Record HTTPAuthorizationCredentials := mkCredentials {
  scheme : string;
  credentials : string
}.

(** [fastapi.security.utils.get_authorization_scheme_param] *)
Definition get_authorization_scheme_param (value : option string)
    : string * string :=
  match truthy_str value with
  | None => ("", "")
  | Some v => let '(s, _, param) := partition_space v in (s, param)
  end.

(** [security = HTTPBearer(auto_error=False)], called on the request's
    [Authorization] header: without a usable bearer header the dependency
    yields [None], it does not raise. *)
Definition security (authorization : option string)
    : option HTTPAuthorizationCredentials :=
  let '(s, c) := get_authorization_scheme_param authorization in
  match truthy_str authorization, s, c with
  | None, _, _ | _, EmptyString, _ | _, _, EmptyString => None
  | Some _, _, _ =>
      if String.eqb (lower s) "bearer" then Some (mkCredentials s c) else None
  end.

Definition dict_get (key : string) (d : list (string * string))
    : option string :=
  match find (fun kv => String.eqb (fst kv) key) d with
  | Some kv => Some (snd kv)
  | None => None
  end.

Section Handlers.

Context {auth : Auth} {builtins : Builtins}.

(** [int(payload.get("sub"))] *)
Definition int_sub (payload : list (string * string)) : M Z :=
  match dict_get "sub" payload with
  | None => raise TypeError
  | Some s =>
      match int_of_str s with
      | Some n => ret n
      | None => raise ValueError
      end
  end.

Definition user_by_id (user_id : Z) : M (option User.t) :=
  d <- get_db ;;
  scalar_one_or_none (select_where (fun u => User.id u =? user_id) (users d)).

Definition register (username password : string) : M Reply :=
  let hashed := hash_password password in
  d <- get_db ;;
  if existsb (fun u => String.eqb (User.email u) username) (users d)
  then raise IntegrityError
  else
    put_db (mkDB (users d ++ [User.mk (next_id (map User.id (users d)))
                                      username hashed])
                 (shortened_links d)) ;;;
    ret (Body (JObj [("message", JStr "User registered successfully")])).

Definition login (username password : string) : M Reply :=
  d <- get_db ;;
  user <- scalar_one_or_none
            (select_where (fun u => String.eqb (User.email u) username)
                          (users d)) ;;
  match user with
  | Some u =>
      if verify_password password (User.hashed_password u)
      then
        let token := create_access_token [("sub", str_of_int (User.id u))] in
        ret (Body (JObj [("access_token", JStr token);
                         ("token_type", JStr "bearer")]))
      else raise (HTTPException 401 "Invalid credentials")
  | None => raise (HTTPException 401 "Invalid credentials")
  end.

Definition get_current_user
    (creds : option HTTPAuthorizationCredentials) : M User.t :=
  token <- match creds with
           | Some c => ret (credentials c)
           | None =>
               raise (AttributeError
                        "'NoneType' object has no attribute 'credentials'")
           end ;;
  match decode_access_token token with
  | None | Some [] => raise (HTTPException 401 "Invalid token")
  | Some payload =>
      user_id <- int_sub payload ;;
      user <- user_by_id user_id ;;
      match user with
      | None => raise (HTTPException 401 "User not found")
      | Some u => ret u
      end
  end.

Definition get_current_user_optional (authorization : option string)
    : M (option User.t) :=
  match truthy_str authorization with
  | None => ret None
  | Some auth_header =>
      let '(s, _, token) := partition_space auth_header in
      if (negb (String.eqb (lower s) "bearer") || String.eqb token "")%bool
      then ret None
      else
        match decode_access_token token with
        | None | Some [] => ret None
        | Some payload =>
            user_id <- int_sub payload ;;
            user_by_id user_id
        end
  end.

Record ShortenLinkRequest := mkShorten {
  req_original_url : string;
  custom_alias : option string;
  req_expires_at : option datetime
}.

(** [random.choices(population, k=k)] *)
Fixpoint choices (population : string) (k : nat) : M (list ascii) :=
  match k with
  | O => ret []
  | S k' =>
      i <- randbelow (String.length population) ;;
      rest <- choices population k' ;;
      ret (char_at population i :: rest)
  end.

Definition generate_short_code (length : nat) : M string :=
  cs <- choices (ascii_letters ++ digits) length ;;
  ret (join_chars cs).

Definition shorten_link (request_data : ShortenLinkRequest)
    (base_url : string) (current_user : option User.t) : M Reply :=
  short_code <- match truthy_str (custom_alias request_data) with
                | Some alias => ret alias
                | None => generate_short_code 6
                end ;;
  existing <- links_by_code short_code ;;
  match scalar existing with
  | Some _ => raise (HTTPException 400 "Alias is already taken")
  | None =>
      insert_link (req_original_url request_data) short_code
                  (req_expires_at request_data)
                  (option_map User.id current_user) ;;;
      ret (Body (JObj
        [("short_url", JStr (base_url ++ short_code));
         ("created_by",
          JStr (match current_user with
                | Some u => User.email u
                | None => "anonymous"
                end))]))
  end.

(** [link.expires_at and link.expires_at < datetime.utcnow()]: the clock
    is read only when [expires_at] is set. *)
Definition has_expired (l : ShortenedLink.t) : M bool :=
  match ShortenedLink.expires_at l with
  | None => ret false
  | Some t => now <- utcnow ;; ret (t <? now)
  end.

Definition redirect_to_original_url (short_code : string) : M Reply :=
  result <- links_by_code short_code ;;
  link <- scalar_one_or_none result ;;
  match link with
  | None => raise (HTTPException 404 "Short URL not found")
  | Some l =>
      gone <- has_expired l ;;
      if gone : bool
      then raise (HTTPException 410 "Link has expired")
      else
        now <- utcnow ;;
        update_link (ShortenedLink.id l)
          (ShortenedLink.with_visit (ShortenedLink.click_count l + 1) now) ;;;
        ret (RedirectResponse (ShortenedLink.original_url l))
  end.

Definition get_original_url (short_code : string) : M Reply :=
  result <- links_by_code short_code ;;
  link <- scalar_one_or_none result ;;
  match link with
  | None => raise (HTTPException 404 "Short URL not found")
  | Some l => ret (Body (JObj [("original_url",
                                JStr (ShortenedLink.original_url l))]))
  end.

(** [link.user_id != current_user.id]: a NULL owner differs from every
    user. *)
Definition differs (owner : option Z) (user_id : Z) : bool :=
  match owner with
  | Some uid => negb (uid =? user_id)
  | None => true
  end.

Definition access_denied {A} : M A :=
  raise (HTTPException 403 "Access denied").

(** In the three handlers below, [not link or link.user_id != current_user.id]
    is the [None] branch and the test of the [Some] branch. *)
Definition get_link_stats (short_code : string) (current_user : User.t)
    : M Reply :=
  result <- links_by_code short_code ;;
  link <- scalar_one_or_none result ;;
  match link with
  | None => access_denied
  | Some l =>
      if differs (ShortenedLink.user_id l) (User.id current_user)
      then access_denied
      else
        ret (Body (JObj
          [("original_url", JStr (ShortenedLink.original_url l));
           ("created_at", JDateTime (ShortenedLink.created_at l));
           ("click_count", JInt (ShortenedLink.click_count l));
           ("last_used_at", JOpt JDateTime (ShortenedLink.last_used_at l))]))
  end.

Definition get_my_links (current_user : User.t) : M Reply :=
  d <- get_db ;;
  let links :=
    select_where
      (fun l => negb (differs (ShortenedLink.user_id l)
                              (User.id current_user)))
      (shortened_links d) in
  ret (Body (JArr
    (map (fun l => JObj
            [("short_code", JStr (ShortenedLink.short_code l));
             ("original_url", JStr (ShortenedLink.original_url l));
             ("click_count", JInt (ShortenedLink.click_count l))])
         links))).

Definition delete_short_link (short_code : string) (current_user : User.t)
    : M Reply :=
  result <- links_by_code short_code ;;
  link <- scalar_one_or_none result ;;
  match link with
  | None => access_denied
  | Some l =>
      if differs (ShortenedLink.user_id l) (User.id current_user)
      then access_denied
      else
        delete_link (ShortenedLink.id l) ;;;
        ret (Body (JObj
          [("message", JStr ("Short URL '" ++ short_code ++ "' deleted"))]))
  end.

Definition update_short_link (short_code base_url new_original_url : string)
    (current_user : User.t) : M Reply :=
  result <- links_by_code short_code ;;
  link <- scalar_one_or_none result ;;
  match link with
  | None => access_denied
  | Some l =>
      if differs (ShortenedLink.user_id l) (User.id current_user)
      then access_denied
      else
        update_link (ShortenedLink.id l)
          (ShortenedLink.with_original_url new_original_url) ;;;
        ret (Body (JObj
          [("short_url",
            JStr (rstrip_slash base_url ++ "/" ++ short_code))]))
  end.

(** One pass of the body of [cleanup_old_links_task] after its sleep, with
    the module's names looked up in [env]. *)
Definition cleanup_cycle_in (env : list (string * Z)) : M unit :=
  now <- utcnow ;;
  days <- load_global env "N_DAYS_INACTIVE" ;;
  let threshold_date := now - timedelta_days days in
  delete_links_where (last_used_before threshold_date).

Definition cleanup_old_links_cycle : M unit :=
  cleanup_cycle_in module_globals.

(** [while True:] for [wakeups] turns of the loop; an exception ends the
    task. *)
Fixpoint cleanup_old_links_task (wakeups : nat) : M unit :=
  match wakeups with
  | O => ret tt
  | S n => cleanup_old_links_cycle ;;; cleanup_old_links_task n
  end.

(** ** The application: routes with their dependencies resolved *)

Inductive Request :=
| PostRegister (username password : string)
| PostLogin (username password : string)
| PostShorten (authorization : option string) (base_url : string)
              (data : ShortenLinkRequest)
| GetRedirect (short_code : string)
| GetLookup (short_code : string)
| GetStats (authorization : option string) (short_code : string)
| GetMyLinks (authorization : option string)
| DeleteLink (authorization : option string) (short_code : string)
| PutLink (authorization : option string)
          (short_code base_url new_original_url : string).

(** [current_user: User = Depends(get_current_user)] *)
Definition as_current_user (authorization : option string)
    (handler : User.t -> M Reply) : M Reply :=
  current_user <- get_current_user (security authorization) ;;
  handler current_user.

Definition route (r : Request) : M Reply :=
  match r with
  | PostRegister username password => register username password
  | PostLogin username password => login username password
  | PostShorten authorization base_url data =>
      current_user <- get_current_user_optional authorization ;;
      shorten_link data base_url current_user
  | GetRedirect short_code => redirect_to_original_url short_code
  | GetLookup short_code => get_original_url short_code
  | GetStats authorization short_code =>
      as_current_user authorization (get_link_stats short_code)
  | GetMyLinks authorization =>
      as_current_user authorization get_my_links
  | DeleteLink authorization short_code =>
      as_current_user authorization (delete_short_link short_code)
  | PutLink authorization short_code base_url new_original_url =>
      as_current_user authorization
        (update_short_link short_code base_url new_original_url)
  end.

Definition app (r : Request) (w : World) : Response * World :=
  serve (route r) w.

End Handlers.

(** ** The running system *)

Section System.

Context {auth : Auth} {builtins : Builtins}.

(** What happens to the world: a request is served, or the sweeper task
    wakes up. *)
Inductive Event :=
| Incoming (r : Request)
| SweeperWakeup.

Definition step (e : Event) (w : World) : World :=
  match e with
  | Incoming r => snd (app r w)
  | SweeperWakeup => snd (cleanup_old_links_cycle w)
  end.

(** [startup]: [create_all] on an empty database. *)
Definition startup (clock : nat -> datetime) (entropy : nat -> nat) : World :=
  mkWorld (mkDB [] []) clock 0 entropy 0.

(** Successive readings of the clock do not go back. *)
Definition nondecreasing (clock : nat -> datetime) : Prop :=
  forall i j, (i <= j)%nat -> clock i <= clock j.

Inductive reachable : World -> Prop :=
| reach_startup clock entropy :
    nondecreasing clock -> reachable (startup clock entropy)
| reach_step w e :
    reachable w -> reachable (step e w).

End System.

(** ** A small deployment to run the handlers on *)

Module Demo.

Definition decode (token : string) : option (list (string * string)) :=
  if String.eqb token "alice-token" then Some [("sub", "1")]
  else if String.eqb token "bob-token" then Some [("sub", "2")]
  else None.

#[export] Instance auth : Auth := {|
  hash_password := fun p => "hashed:" ++ p;
  verify_password := fun p h => String.eqb ("hashed:" ++ p) h;
  create_access_token := fun claims =>
    match dict_get "sub" claims with
    | Some "1" => "alice-token"
    | Some "2" => "bob-token"
    | _ => "token"
    end;
  decode_access_token := decode
|}.

#[export] Instance builtins : Builtins := {|
  int_of_str := fun s =>
    if String.eqb s "1" then Some 1
    else if String.eqb s "2" then Some 2 else None;
  str_of_int := fun n =>
    if n =? 1 then "1" else if n =? 2 then "2" else "0"
|}.

Definition day : Z := 86400000000.

(** A clock that stands at day 100. *)
Definition noon (k : nat) : datetime := 8640000000000.

(** A clock that advances by a microsecond at every reading. *)
Definition ticking (k : nat) : datetime := Z.of_nat k.

Definition alice := User.mk 1 "alice" "hashed:a".
Definition bob := User.mk 2 "bob" "hashed:b".

Definition abc : ShortenedLink.t :=
  ShortenedLink.mk 1 "https://example.com" "abc" (99 * day) None 0 None
                   (Some 1).

(** A link whose code is what the generator draws from zero entropy. *)
Definition aaaaaa : ShortenedLink.t :=
  ShortenedLink.mk 2 "https://example.org" "aaaaaa" (99 * day) None 3
                   (Some (99 * day)) None.

(** Expired on day 95, last used on day 92: eight days before [noon]. *)
Definition old : ShortenedLink.t :=
  ShortenedLink.mk 3 "https://old.example" "old" (90 * day)
                   (Some (95 * day)) 5 (Some (92 * day)) (Some 2).

(** Last used on day 94: six days before [noon]. *)
Definition recent : ShortenedLink.t :=
  ShortenedLink.mk 4 "https://new.example" "new" (90 * day) None 1
                   (Some (94 * day)) (Some 2).

Definition world (links : list ShortenedLink.t) : World :=
  mkWorld (mkDB [alice; bob] links) noon 0 (fun _ => O) 0.

Definition expired_at_noon (l : ShortenedLink.t) : bool :=
  match ShortenedLink.expires_at l with
  | Some t => t <? noon 0
  | None => false
  end.

End Demo.

(** ** Vocabulary of the statements *)

(** The UNIQUE constraint on [short_code]. *)
Definition unique_codes (rows : list ShortenedLink.t) : Prop :=
  NoDup (link_codes rows).

(** The primary key of [shortened_links]. *)
Definition unique_ids (rows : list ShortenedLink.t) : Prop :=
  NoDup (link_ids rows).

Definition not_found : Response :=
  HTTP 404 (JObj [("detail", JStr "Short URL not found")]).

Definition gone : Response :=
  HTTP 410 (JObj [("detail", JStr "Link has expired")]).

(** The world after one more reading of the clock. *)
Definition after_read (w : World) : World :=
  mkWorld (db w) (clock w) (S (clock_reads w)) (entropy w) (entropy_draws w).

Definition alphabet : string := ascii_letters ++ digits.

Definition is_upper (c : ascii) : bool :=
  (Nat.leb 65 (nat_of_ascii c) && Nat.leb (nat_of_ascii c) 90)%bool.

Definition is_lower (c : ascii) : bool :=
  (Nat.leb 97 (nat_of_ascii c) && Nat.leb (nat_of_ascii c) 122)%bool.

Definition is_digit (c : ascii) : bool :=
  (Nat.leb 48 (nat_of_ascii c) && Nat.leb (nat_of_ascii c) 57)%bool.

Definition alphanumeric (c : ascii) : bool :=
  (is_upper c || is_lower c || is_digit c)%bool.

(** The characters that [choices] picks with the draws [start], ...,
    [start + k - 1] of the entropy [e]. *)
Fixpoint drawn (population : string) (e : nat -> nat) (start k : nat)
    : list ascii :=
  match k with
  | O => []
  | S k' =>
      char_at population (Nat.modulo (e start) (String.length population))
      :: drawn population e (S start) k'
  end.

(** The world after [k] more draws of entropy. *)
Definition after_draws (k : nat) (w : World) : World :=
  mkWorld (db w) (clock w) (clock_reads w) (entropy w)
          (k + entropy_draws w).

Definition alias_taken : Response :=
  HTTP 400 (JObj [("detail", JStr "Alias is already taken")]).

(** The code a creation request gets in world [w]: the alias when one is
    given, else six characters from the next six draws. *)
Definition chosen_code (data : ShortenLinkRequest) (w : World) : string :=
  match truthy_str (custom_alias data) with
  | Some alias => alias
  | None => join_chars (drawn alphabet (entropy w) (entropy_draws w) 6)
  end.

Definition code_draws (data : ShortenLinkRequest) : nat :=
  match truthy_str (custom_alias data) with
  | Some _ => 0
  | None => 6
  end.

(** The row a successful creation appends. *)
Definition new_link (data : ShortenLinkRequest) (user : option User.t)
    (w : World) : ShortenedLink.t :=
  ShortenedLink.mk (next_id (link_ids (shortened_links (db w))))
    (req_original_url data) (chosen_code data w)
    (clock w (clock_reads w)) (req_expires_at data) 0 None
    (option_map User.id user).

Definition created (base_url code : string) (user : option User.t) : Reply :=
  Body (JObj
    [("short_url", JStr (base_url ++ code));
     ("created_by",
      JStr (match user with
            | Some u => User.email u
            | None => "anonymous"
            end))]).

Definition with_new_link (row : ShortenedLink.t) (draws : nat) (w : World)
    : World :=
  mkWorld (mkDB (users (db w)) (shortened_links (db w) ++ [row]))
          (clock w) (S (clock_reads w)) (entropy w)
          (draws + entropy_draws w).

Definition forbidden : Response :=
  HTTP 403 (JObj [("detail", JStr "Access denied")]).

Definition none_has_no_credentials : Exn :=
  AttributeError "'NoneType' object has no attribute 'credentials'".

(** The three operations that are guarded per link. *)
Inductive OwnerOp :=
| Stats
| Delete
| Update (base_url new_original_url : string).

Definition owner_handler (op : OwnerOp) (short_code : string)
    : User.t -> M Reply :=
  match op with
  | Stats => get_link_stats short_code
  | Delete => delete_short_link short_code
  | Update base_url new_original_url =>
      update_short_link short_code base_url new_original_url
  end.

Definition owner_request (op : OwnerOp) (authorization : option string)
    (short_code : string) : Request :=
  match op with
  | Stats => GetStats authorization short_code
  | Delete => DeleteLink authorization short_code
  | Update base_url new_original_url =>
      PutLink authorization short_code base_url new_original_url
  end.

Definition links_of (w : World) : list ShortenedLink.t :=
  shortened_links (db w).

(** The UPDATE of [update_short_link]. *)
Definition retarget (key : Z) (url : string) (rows : list ShortenedLink.t)
    : list ShortenedLink.t :=
  map (fun r => if ShortenedLink.id r =? key
                then ShortenedLink.with_original_url url r else r) rows.

(** The UPDATE of [redirect_to_original_url]. *)
Definition visit (key : Z) (clicks : Z) (now : datetime)
    (rows : list ShortenedLink.t) : list ShortenedLink.t :=
  map (fun r => if ShortenedLink.id r =? key
                then ShortenedLink.with_visit clicks now r else r) rows.

(** The DELETE of [delete_short_link]. *)
Definition without (key : Z) (rows : list ShortenedLink.t)
    : list ShortenedLink.t :=
  filter (fun r => negb (ShortenedLink.id r =? key)) rows.

(** The clock reading that a successful resolution of [l] stores: the next
    one, or the one after the expiry test. *)
Definition visit_read (l : ShortenedLink.t) (w : World) : nat :=
  match ShortenedLink.expires_at l with
  | None => clock_reads w
  | Some _ => S (clock_reads w)
  end.

(** The world after a successful resolution of [l]. *)
Definition visited (l : ShortenedLink.t) (w : World) : World :=
  mkWorld (mkDB (users (db w))
             (visit (ShortenedLink.id l) (ShortenedLink.click_count l + 1)
                    (clock w (visit_read l w)) (links_of w)))
          (clock w) (S (visit_read l w)) (entropy w) (entropy_draws w).

(** [not (link.expires_at and link.expires_at < now)] *)
Definition live_at (l : ShortenedLink.t) (now : datetime) : bool :=
  match ShortenedLink.expires_at l with
  | Some t => negb (t <? now)
  | None => true
  end.

(** [l'] is [l] up to its [original_url]. *)
Definition same_usage (l l' : ShortenedLink.t) : Prop :=
  ShortenedLink.id l' = ShortenedLink.id l
  /\ ShortenedLink.short_code l' = ShortenedLink.short_code l
  /\ ShortenedLink.created_at l' = ShortenedLink.created_at l
  /\ ShortenedLink.expires_at l' = ShortenedLink.expires_at l
  /\ ShortenedLink.click_count l' = ShortenedLink.click_count l
  /\ ShortenedLink.last_used_at l' = ShortenedLink.last_used_at l
  /\ ShortenedLink.user_id l' = ShortenedLink.user_id l.

(** Every row of [before] is still there, in place and with its usage;
    rows may have been appended. *)
Definition usage_kept (before after : list ShortenedLink.t) : Prop :=
  exists kept added,
    after = (kept ++ added)%list /\ Forall2 same_usage before kept.

(** The requests that resolve a link or delete one. *)
Definition is_redirect (r : Request) : bool :=
  match r with GetRedirect _ => true | _ => false end.

Definition is_delete (r : Request) : bool :=
  match r with DeleteLink _ _ => true | _ => false end.

(** Keys and codes are unique, and every [last_used_at] is a reading of
    the clock that has already been taken. *)
Definition consistent (rows : list ShortenedLink.t) (clock : nat -> datetime)
    (reads : nat) : Prop :=
  unique_ids rows
  /\ unique_codes rows
  /\ forall l t, In l rows -> ShortenedLink.last_used_at l = Some t ->
       exists k, (k < reads)%nat /\ t = clock k.

Definition invariant (w : World) : Prop :=
  nondecreasing (clock w)
  /\ consistent (links_of w) (clock w) (clock_reads w).

(** The UNIQUE constraint on [email] and the primary key of [users]. *)
Definition unique_users (rows : list User.t) : Prop :=
  NoDup (map User.email rows) /\ NoDup (map User.id rows).

(** A counter that starts at 0 and is raised exactly when [last_used_at] is
    set. *)
Definition usage_sane (l : ShortenedLink.t) : Prop :=
  0 <= ShortenedLink.click_count l
  /\ (ShortenedLink.click_count l = 0
      <-> ShortenedLink.last_used_at l = None).

(** The body of a successful stats request for [l]. *)
Definition stats_of (l : ShortenedLink.t) : JSON :=
  JObj [("original_url", JStr (ShortenedLink.original_url l));
        ("created_at", JDateTime (ShortenedLink.created_at l));
        ("click_count", JInt (ShortenedLink.click_count l));
        ("last_used_at", JOpt JDateTime (ShortenedLink.last_used_at l))].


(** [s.endswith("/")] *)
Fixpoint ends_with_slash (s : string) : bool :=
  match s with
  | EmptyString => false
  | String c EmptyString => Ascii.eqb c "/"
  | String _ s' => ends_with_slash s'
  end.

(** The world after [n] resolutions of [code] in a row. *)
Fixpoint resolved_times (n : nat) (code : string) (w : World) : World :=
  match n with
  | O => w
  | S n' => resolved_times n' code (snd (redirect_to_original_url code w))
  end.

(** The user that registering [username] in world [w] adds. *)
Definition new_user {auth : Auth} (username password : string) (w : World)
    : User.t :=
  User.mk (next_id (map User.id (users (db w)))) username
          (hash_password password).

Definition invalid_credentials : Response :=
  HTTP 401 (JObj [("detail", JStr "Invalid credentials")]).

(** The first position of [c] in [s], or the length of [s]. *)
Fixpoint index_in (c : ascii) (s : string) : nat :=
  match s with
  | EmptyString => O
  | String x s' => if Ascii.eqb x c then O else S (index_in c s')
  end.

(** An entropy whose draws from [start] on pick the characters [cs] out of
    [population]. *)
Definition entropy_for (population : string) (cs : list ascii) (start : nat)
    : nat -> nat :=
  fun k => index_in (nth (k - start) cs " "%char) population.

(** World [w] with the entropy replaced. *)
Definition with_entropy (e : nat -> nat) (w : World) : World :=
  mkWorld (db w) (clock w) (clock_reads w) e (entropy_draws w).

(** ** Facts about the tables *)

Lemma short_code_is_true code l :
  short_code_is code l = true <-> ShortenedLink.short_code l = code.
Proof. unfold short_code_is. apply String.eqb_eq. Qed.

Lemma select_absent code rows :
  ~ In code (link_codes rows) ->
  select_where (short_code_is code) rows = [].
Proof.
  unfold select_where, link_codes.
  induction rows as [|r rows IH]; simpl; intros Hnot; [reflexivity|].
  destruct (short_code_is code r) eqn:E.
  - apply short_code_is_true in E. tauto.
  - apply IH. tauto.
Qed.

Lemma select_present l rows :
  unique_codes rows -> In l rows ->
  select_where (short_code_is (ShortenedLink.short_code l)) rows = [l].
Proof.
  unfold unique_codes, link_codes, select_where.
  induction rows as [|r rows IH]; simpl; intros Hu Hin; [contradiction|].
  inversion Hu as [|c cs Hnot Hrest]; subst.
  destruct Hin as [->|Hin].
  - replace (short_code_is (ShortenedLink.short_code l) l) with true
      by (symmetry; now apply short_code_is_true).
    f_equal. now apply select_absent.
  - destruct (short_code_is (ShortenedLink.short_code l) r) eqn:E.
    + apply short_code_is_true in E. exfalso. apply Hnot.
      rewrite E. now apply in_map.
    + now apply IH.
Qed.

Lemma select_code rows code l :
  In l (select_where (short_code_is code) rows) ->
  In l rows /\ ShortenedLink.short_code l = code.
Proof.
  unfold select_where. rewrite filter_In, short_code_is_true. tauto.
Qed.

Lemma fold_max_bound ids i : In i ids -> i <= fold_right Z.max 0 ids.
Proof.
  induction ids as [|j ids IH]; simpl; [contradiction|].
  intros [->|Hin]; [lia | specialize (IH Hin); lia].
Qed.

Lemma next_id_fresh ids : ~ In (next_id ids) ids.
Proof.
  unfold next_id. intros Hin. apply fold_max_bound in Hin. lia.
Qed.

(** ** Resolution *)

(** C4. A code that no stored link carries resolves to the 404 failure and
    leaves the world as it was; whatever the clock says, the answer is not
    the 410 of an expired link, because the row is looked up before any
    expiry test. *)
Theorem resolve_absent_not_found code w :
  ~ In code (link_codes (shortened_links (db w))) ->
  serve (redirect_to_original_url code) w = (not_found, w)
  /\ fst (serve (redirect_to_original_url code) w) <> gone.
Proof.
  intros Habsent.
  assert (E : serve (redirect_to_original_url code) w = (not_found, w)).
  { unfold serve, redirect_to_original_url, links_by_code, bind, get_db, ret.
    rewrite (select_absent _ _ Habsent). reflexivity. }
  split; [exact E|]. rewrite E. discriminate.
Qed.

Lemma resolve_absent_not_found_witness :
  ~ In "zzz" (link_codes (shortened_links (db (Demo.world [Demo.abc; Demo.old]))))
  /\ serve (redirect_to_original_url "zzz") (Demo.world [Demo.abc; Demo.old])
     = (not_found, Demo.world [Demo.abc; Demo.old]).
Proof.
  assert (H : ~ In "zzz" (link_codes (shortened_links
                 (db (Demo.world [Demo.abc; Demo.old]))))).
  { simpl. intros [E|[E|[]]]; discriminate E. }
  split; [exact H|].
  exact (proj1 (resolve_absent_not_found "zzz" _ H)).
Defined.

(** C3. A stored link whose [expires_at] lies before the clock reading of
    the expiry test resolves to the 410 failure, which is not the 404 one;
    the database is left exactly as it was, so the link keeps its
    [click_count] and [last_used_at] and stays stored.  Only the clock has
    been read once. *)
Theorem resolve_expired_gone w l t :
  unique_codes (shortened_links (db w)) ->
  In l (shortened_links (db w)) ->
  ShortenedLink.expires_at l = Some t ->
  t < clock w (clock_reads w) ->
  serve (redirect_to_original_url (ShortenedLink.short_code l)) w
    = (gone, after_read w)
  /\ db (after_read w) = db w
  /\ In l (shortened_links (db (after_read w)))
  /\ gone <> not_found.
Proof.
  intros Hu Hin Hexp Hlt.
  split; [|split; [reflexivity|split; [exact Hin|discriminate]]].
  unfold serve, redirect_to_original_url, links_by_code, bind, get_db, ret.
  rewrite (select_present _ _ Hu Hin). simpl.
  unfold has_expired, bind, utcnow, ret. rewrite Hexp.
  apply Z.ltb_lt in Hlt. rewrite Hlt. reflexivity.
Qed.

Lemma resolve_expired_gone_witness :
  serve (redirect_to_original_url "old") (Demo.world [Demo.abc; Demo.old])
    = (gone, after_read (Demo.world [Demo.abc; Demo.old])).
Proof.
  refine (proj1 (resolve_expired_gone (Demo.world [Demo.abc; Demo.old])
                   Demo.old (95 * Demo.day) _ _ _ _)).
  - repeat constructor; simpl; intuition discriminate.
  - simpl. auto.
  - reflexivity.
  - reflexivity.
Defined.

(** ** Lookup *)

(** C9. The lookup handler has two outcomes.  For a stored link it answers
    200 with the link's [original_url], without looking at [expires_at], so
    also for a link that has expired; for a code that no link carries it
    answers 404.  It never answers 410 and it leaves the world, and with it
    every link, as it was. *)
Theorem lookup_two_outcomes w :
  unique_codes (shortened_links (db w)) ->
  (forall l, In l (shortened_links (db w)) ->
     serve (get_original_url (ShortenedLink.short_code l)) w
       = (HTTP 200 (JObj [("original_url",
                           JStr (ShortenedLink.original_url l))]), w))
  /\ (forall code, ~ In code (link_codes (shortened_links (db w))) ->
        serve (get_original_url code) w = (not_found, w))
  /\ (forall code,
        (exists l, In l (shortened_links (db w))
                   /\ ShortenedLink.short_code l = code
                   /\ fst (serve (get_original_url code) w)
                      = HTTP 200 (JObj [("original_url",
                                         JStr (ShortenedLink.original_url l))]))
        \/ fst (serve (get_original_url code) w) = not_found)
  /\ (forall code, fst (serve (get_original_url code) w) <> gone)
  /\ (forall code, snd (serve (get_original_url code) w) = w).
Proof.
  intros Hu.
  assert (Hpresent : forall l, In l (shortened_links (db w)) ->
     serve (get_original_url (ShortenedLink.short_code l)) w
       = (HTTP 200 (JObj [("original_url",
                           JStr (ShortenedLink.original_url l))]), w)).
  { intros l Hin.
    unfold serve, get_original_url, links_by_code, bind, get_db, ret.
    now rewrite (select_present _ _ Hu Hin). }
  assert (Habsent : forall code,
     ~ In code (link_codes (shortened_links (db w))) ->
     serve (get_original_url code) w = (not_found, w)).
  { intros code Hnot.
    unfold serve, get_original_url, links_by_code, bind, get_db, ret.
    now rewrite (select_absent _ _ Hnot). }
  assert (Hcases : forall code,
     (exists l, In l (shortened_links (db w))
                /\ ShortenedLink.short_code l = code
                /\ fst (serve (get_original_url code) w)
                   = HTTP 200 (JObj [("original_url",
                                      JStr (ShortenedLink.original_url l))]))
     \/ fst (serve (get_original_url code) w) = not_found).
  { intros code.
    destruct (in_dec string_dec code (link_codes (shortened_links (db w))))
      as [Hin|Hnot].
    - left. unfold link_codes in Hin. apply in_map_iff in Hin.
      destruct Hin as [l [Hcode Hin]]. exists l.
      split; [exact Hin|split; [exact Hcode|]].
      rewrite <- Hcode, (Hpresent l Hin). reflexivity.
    - right. now rewrite (Habsent code Hnot). }
  split; [exact Hpresent|]. split; [exact Habsent|].
  split; [exact Hcases|]. split.
  - intros code. destruct (Hcases code) as [[l [_ [_ E]]]|E];
      rewrite E; discriminate.
  - intros code.
    unfold serve, get_original_url, links_by_code, bind, get_db, ret,
      scalar_one_or_none.
    destruct (select_where (short_code_is code) (shortened_links (db w)))
      as [|r [|r' rest]]; reflexivity.
Qed.

Lemma lookup_two_outcomes_witness :
  serve (get_original_url "old") (Demo.world [Demo.abc; Demo.old])
    = (HTTP 200 (JObj [("original_url", JStr "https://old.example")]),
       Demo.world [Demo.abc; Demo.old])
  /\ Demo.expired_at_noon Demo.old = true.
Proof.
  split; [|reflexivity].
  refine (proj1 (lookup_two_outcomes (Demo.world [Demo.abc; Demo.old]) _)
            Demo.old _).
  - repeat constructor; simpl; intuition discriminate.
  - simpl. auto.
Defined.

(** ** The code generator *)

Lemma after_draws_0 w : after_draws 0 w = w.
Proof. destruct w; reflexivity. Qed.

Lemma choices_run population k w :
  choices population k w
  = (inr (drawn population (entropy w) (entropy_draws w) k), after_draws k w).
Proof.
  revert w. induction k as [|k IH]; intros w.
  - simpl. unfold ret. now rewrite after_draws_0.
  - simpl. unfold bind at 1. unfold randbelow at 1.
    unfold bind at 1. rewrite IH. unfold ret, after_draws. simpl.
    now rewrite Nat.add_succ_r.
Qed.

Lemma generate_short_code_run k w :
  generate_short_code k w
  = (inr (join_chars (drawn alphabet (entropy w) (entropy_draws w) k)),
     after_draws k w).
Proof.
  unfold generate_short_code, bind. fold alphabet.
  now rewrite choices_run.
Qed.

Lemma length_join_chars cs : String.length (join_chars cs) = List.length cs.
Proof. induction cs; simpl; congruence. Qed.

Lemma chars_of_join_chars cs : chars_of (join_chars cs) = cs.
Proof. induction cs; simpl; congruence. Qed.

Lemma length_drawn population e start k :
  List.length (drawn population e start k) = k.
Proof. revert start. induction k; intros; simpl; congruence. Qed.

Lemma alphabet_size : String.length alphabet = 62%nat.
Proof. reflexivity. Qed.

Lemma alphabet_get i :
  (i < 62)%nat ->
  alphanumeric (char_at alphabet i) = true
  /\ In (char_at alphabet i) (chars_of alphabet).
Proof.
  intros Hi.
  assert (Hall : forallb (fun j =>
            alphanumeric (char_at alphabet j)
            && existsb (Ascii.eqb (char_at alphabet j)) (chars_of alphabet))%bool
            (seq 0 62) = true) by (vm_compute; reflexivity).
  rewrite forallb_forall in Hall.
  specialize (Hall i). rewrite in_seq in Hall.
  assert (Hi' : (0 <= i < 0 + 62)%nat) by lia.
  apply Hall in Hi'. apply andb_true_iff in Hi'. destruct Hi' as [Ha Hb].
  split; [exact Ha|].
  apply existsb_exists in Hb. destruct Hb as [c [Hin Heq]].
  apply Ascii.eqb_eq in Heq. now rewrite Heq.
Qed.

Lemma drawn_alphabet e start k :
  Forall (fun c => alphanumeric c = true /\ In c (chars_of alphabet))
         (drawn alphabet e start k).
Proof.
  revert start. induction k as [|k IH]; intros start; cbn [drawn];
    constructor.
  - apply alphabet_get. rewrite alphabet_size.
    apply Nat.mod_upper_bound. discriminate.
  - apply IH.
Qed.

(** ** Creation *)

Lemma scalar_select {A B} (p : A -> bool) rows (x y : B) :
  match scalar (select_where p rows) with Some _ => x | None => y end
  = if existsb p rows then x else y.
Proof.
  unfold scalar, select_where.
  induction rows as [|r rows IH]; simpl; [reflexivity|].
  destruct (p r); simpl; [reflexivity | exact IH].
Qed.

Lemma choose_code_run data w :
  match truthy_str (custom_alias data) with
  | Some alias => ret alias
  | None => generate_short_code 6
  end w
  = (inr (chosen_code data w), after_draws (code_draws data) w).
Proof.
  unfold chosen_code, code_draws.
  destruct (truthy_str (custom_alias data)).
  - unfold ret. now rewrite after_draws_0.
  - apply generate_short_code_run.
Qed.

Lemma shorten_link_run data base_url user w :
  shorten_link data base_url user w
  = if existsb (short_code_is (chosen_code data w)) (shortened_links (db w))
    then (inl (HTTPException 400 "Alias is already taken"),
          after_draws (code_draws data) w)
    else (inr (created base_url (chosen_code data w) user),
          with_new_link (new_link data user w) (code_draws data) w).
Proof.
  unfold shorten_link. unfold bind at 1. rewrite choose_code_run.
  unfold bind at 1. unfold links_by_code, bind, get_db, ret.
  cbn [db after_draws].
  set (code := chosen_code data w).
  assert (Hnew : new_link data user w
    = ShortenedLink.mk (next_id (link_ids (shortened_links (db w))))
        (req_original_url data) code (clock w (clock_reads w))
        (req_expires_at data) 0 None (option_map User.id user))
    by reflexivity.
  destruct (existsb (short_code_is code) (shortened_links (db w))) eqn:E.
  - pose proof (scalar_select (short_code_is code) (shortened_links (db w))
                  true false) as Hs.
    rewrite E in Hs.
    destruct (scalar (select_where (short_code_is code)
                        (shortened_links (db w)))); [reflexivity|discriminate].
  - pose proof (scalar_select (short_code_is code) (shortened_links (db w))
                  true false) as Hs.
    rewrite E in Hs.
    destruct (scalar (select_where (short_code_is code)
                        (shortened_links (db w)))); [discriminate|].
    unfold insert_link, bind, utcnow, get_db, put_db, ret, set_db,
      after_draws.
    cbn [db clock clock_reads entropy entropy_draws].
    rewrite E. rewrite Hnew. reflexivity.
Qed.

Lemma existsb_short_code code rows :
  existsb (short_code_is code) rows = true <-> In code (link_codes rows).
Proof.
  unfold link_codes. rewrite existsb_exists, in_map_iff.
  split; intros [l [H1 H2]]; exists l.
  - apply short_code_is_true in H2. tauto.
  - split; [tauto|]. now apply short_code_is_true.
Qed.

(** C7. A creation request without a custom alias ([None], or the empty
    string, which Python's [or] treats alike) gets the code that
    [generate_short_code 6] produces: six characters, each of them one of
    the 62 characters of [ascii_letters + digits], that is an upper-case
    letter, a lower-case letter or a digit.  The request then either
    collides with a stored code or stores a link under exactly that code
    and returns it appended to the base URL. *)
Theorem generated_code_shape data base_url user w :
  truthy_str (custom_alias data) = None ->
  generate_short_code 6 w = (inr (chosen_code data w), after_draws 6 w)
  /\ String.length (chosen_code data w) = 6%nat
  /\ Forall (fun c => alphanumeric c = true /\ In c (chars_of alphabet))
            (chars_of (chosen_code data w))
  /\ String.length alphabet = 62%nat
  /\ (serve (shorten_link data base_url user) w
        = (alias_taken, after_draws 6 w)
      \/ serve (shorten_link data base_url user) w
           = (respond (inr (created base_url (chosen_code data w) user)),
              with_new_link (new_link data user w) 6 w)
         /\ ShortenedLink.short_code (new_link data user w)
            = chosen_code data w).
Proof.
  intros Hnone.
  assert (Hcode : chosen_code data w
            = join_chars (drawn alphabet (entropy w) (entropy_draws w) 6))
    by (unfold chosen_code; now rewrite Hnone).
  assert (Hdraws : code_draws data = 6%nat)
    by (unfold code_draws; now rewrite Hnone).
  split; [rewrite Hcode; apply generate_short_code_run|].
  split; [rewrite Hcode, length_join_chars; apply length_drawn|].
  split; [rewrite Hcode, chars_of_join_chars; apply drawn_alphabet|].
  split; [apply alphabet_size|].
  unfold serve. rewrite shorten_link_run, Hdraws.
  destruct (existsb (short_code_is (chosen_code data w))
              (shortened_links (db w))).
  - left. reflexivity.
  - right. split; reflexivity.
Qed.

Lemma generated_code_shape_witness :
  truthy_str (custom_alias (mkShorten "https://example.net" None None)) = None
  /\ String.length
       (chosen_code (mkShorten "https://example.net" None None)
                    (Demo.world [Demo.abc])) = 6%nat.
Proof.
  split; [reflexivity|].
  exact (proj1 (proj2 (generated_code_shape
           (mkShorten "https://example.net" None None) "http://sho.rt/" None
           (Demo.world [Demo.abc]) eq_refl))).
Defined.

(** C5, amended.  When the code of a creation request is
    already stored the request fails with 400 "Alias is already taken" and
    the database is unchanged, for a custom alias and for a generated code
    alike: a generated code costs six draws of entropy, one generation, and
    nothing is drawn again. *)
Theorem collision_rejected data base_url user w :
  In (chosen_code data w) (link_codes (shortened_links (db w))) ->
  serve (shorten_link data base_url user) w
    = (alias_taken, after_draws (code_draws data) w)
  /\ db (after_draws (code_draws data) w) = db w
  /\ (forall alias, truthy_str (custom_alias data) = Some alias ->
        chosen_code data w = alias /\ after_draws (code_draws data) w = w)
  /\ (truthy_str (custom_alias data) = None -> code_draws data = 6%nat).
Proof.
  intros Hin. apply existsb_short_code in Hin.
  split; [|split; [reflexivity|split]].
  - unfold serve. rewrite shorten_link_run, Hin. reflexivity.
  - intros alias Halias. unfold chosen_code, code_draws. rewrite Halias.
    split; [reflexivity | apply after_draws_0].
  - intros Hnone. unfold code_draws. now rewrite Hnone.
Qed.

Lemma collision_rejected_witness :
  In (chosen_code (mkShorten "https://example.net" (Some "abc") None)
                  (Demo.world [Demo.abc]))
     (link_codes (shortened_links (db (Demo.world [Demo.abc]))))
  /\ serve (shorten_link (mkShorten "https://example.net" (Some "abc") None)
                         "http://sho.rt/" (Some Demo.bob))
           (Demo.world [Demo.abc])
     = (alias_taken,
        after_draws 0 (Demo.world [Demo.abc])).
Proof.
  assert (H : In (chosen_code (mkShorten "https://example.net" (Some "abc") None)
                    (Demo.world [Demo.abc]))
                 (link_codes (shortened_links (db (Demo.world [Demo.abc])))))
    by (simpl; auto).
  split; [exact H|].
  exact (proj1 (collision_rejected
           (mkShorten "https://example.net" (Some "abc") None)
           "http://sho.rt/" (Some Demo.bob) (Demo.world [Demo.abc]) H)).
Defined.

(** C5, counterexample to a silent retry.  A request without an alias, in a world whose
    next six draws spell the stored code ["aaaaaa"], is answered with
    "Alias is already taken": the generated collision reaches the caller,
    after six draws and no more. *)
Lemma generated_collision_is_surfaced :
  custom_alias (mkShorten "https://example.net" None None) = None
  /\ chosen_code (mkShorten "https://example.net" None None)
                 (Demo.world [Demo.aaaaaa]) = "aaaaaa"
  /\ serve (shorten_link (mkShorten "https://example.net" None None)
                         "http://sho.rt/" None)
           (Demo.world [Demo.aaaaaa])
     = (alias_taken, after_draws 6 (Demo.world [Demo.aaaaaa]))
  /\ entropy_draws (after_draws 6 (Demo.world [Demo.aaaaaa])) = 6%nat.
Proof.
  split; [reflexivity|]. split; [reflexivity|]. split; [|reflexivity].
  unfold serve. rewrite shorten_link_run. reflexivity.
Qed.

(** ** The sweeper *)

(** C6, what the code does.  At a clock standing at day 100 the table
    holds a link last used on day 92 and one last used on day 94.  The
    sweeper's cycle reads [N_DAYS_INACTIVE], which the module does not
    bind ([INACTIVITY_DAYS_LIMIT] is the name bound to 7): it raises
    [NameError] and the table keeps both links, and the task has ended
    after its first turn.  So it is in every world.  Had the name been
    bound to [INACTIVITY_DAYS_LIMIT] the same cycle would have deleted the
    first link and kept the second. *)
Theorem sweeper_cycle_name_error :
  ShortenedLink.last_used_at Demo.old
    = Some (Demo.noon 0 - timedelta_days 8)
  /\ ShortenedLink.last_used_at Demo.recent
     = Some (Demo.noon 0 - timedelta_days 6)
  /\ lookup_name "N_DAYS_INACTIVE" module_globals = None
  /\ lookup_name "INACTIVITY_DAYS_LIMIT" module_globals = Some 7
  /\ fst (cleanup_old_links_cycle (Demo.world [Demo.old; Demo.recent]))
     = inl (NameError "N_DAYS_INACTIVE")
  /\ shortened_links
       (db (snd (cleanup_old_links_cycle (Demo.world [Demo.old; Demo.recent]))))
     = [Demo.old; Demo.recent]
  /\ (forall w wakeups,
        cleanup_old_links_cycle w
          = (inl (NameError "N_DAYS_INACTIVE"), after_read w)
        /\ cleanup_old_links_task (S wakeups) w
           = (inl (NameError "N_DAYS_INACTIVE"), after_read w)
        /\ db (after_read w) = db w)
  /\ shortened_links
       (db (snd (cleanup_cycle_in [("N_DAYS_INACTIVE", INACTIVITY_DAYS_LIMIT)]
                   (Demo.world [Demo.old; Demo.recent]))))
     = [Demo.recent].
Proof. repeat split; reflexivity. Qed.

(** ** The ownership guard *)

Section Guard.

Context {auth : Auth} {builtins : Builtins}.

Lemma user_by_id_world user_id w : snd (user_by_id user_id w) = w.
Proof.
  unfold user_by_id, bind, get_db, scalar_one_or_none.
  destruct (select_where _ (users (db w))) as [|u [|u' rest]]; reflexivity.
Qed.

Lemma int_sub_world payload w : snd (int_sub payload w) = w.
Proof.
  unfold int_sub. destruct (dict_get "sub" payload); [|reflexivity].
  destruct (int_of_str s); reflexivity.
Qed.

(** Resolving the caller reads the [users] table and writes nothing. *)
Lemma get_current_user_world creds w : snd (get_current_user creds w) = w.
Proof.
  unfold get_current_user, bind.
  destruct creds as [c|]; [|reflexivity]. cbn [ret].
  destruct (decode_access_token (credentials c)) as [[|kv payload]|];
    try reflexivity.
  pose proof (int_sub_world (kv :: payload) w) as Hi.
  destruct (int_sub (kv :: payload) w) as [[e|n] w1]; simpl in Hi; subst w1;
    [reflexivity|].
  pose proof (user_by_id_world n w) as Hu.
  destruct (user_by_id n w) as [[e|[u|]] w2]; simpl in Hu; subst w2;
    reflexivity.
Qed.

Lemma user_by_id_users user_id w1 w2 :
  users (db w1) = users (db w2) ->
  fst (user_by_id user_id w1) = fst (user_by_id user_id w2).
Proof.
  intros H. unfold user_by_id, bind, get_db, scalar_one_or_none, ret.
  rewrite H.
  destruct (select_where _ (users (db w2))) as [|u [|u' rest]]; reflexivity.
Qed.

Lemma int_sub_pure payload w1 w2 :
  fst (int_sub payload w1) = fst (int_sub payload w2).
Proof.
  unfold int_sub. destruct (dict_get "sub" payload); [|reflexivity].
  destruct (int_of_str s); reflexivity.
Qed.

(** Who the caller is depends on the credentials and the [users] table
    only. *)
Lemma get_current_user_users creds w1 w2 :
  users (db w1) = users (db w2) ->
  fst (get_current_user creds w1) = fst (get_current_user creds w2).
Proof.
  intros H. unfold get_current_user, bind.
  destruct creds as [c|]; [|reflexivity]. cbn [ret].
  destruct (decode_access_token (credentials c)) as [[|kv payload]|];
    try reflexivity.
  pose proof (int_sub_world (kv :: payload) w1) as Hw1.
  pose proof (int_sub_world (kv :: payload) w2) as Hw2.
  pose proof (int_sub_pure (kv :: payload) w1 w2) as Hi.
  destruct (int_sub (kv :: payload) w1) as [[e1|n1] w1'],
           (int_sub (kv :: payload) w2) as [[e2|n2] w2'];
    simpl in Hw1, Hw2, Hi; subst; try discriminate Hi.
  - simpl. injection Hi as ->. reflexivity.
  - injection Hi as ->.
    pose proof (user_by_id_users n2 w1 w2 H) as Hu.
    destruct (user_by_id n2 w1) as [[e1|[u1|]] w1'],
             (user_by_id n2 w2) as [[e2|[u2|]] w2'];
      simpl in Hu; try discriminate Hu; simpl; try reflexivity;
      injection Hu as ->; reflexivity.
Qed.

(** The only [HTTPException]s of [get_current_user] are its two 401s, and
    both need credentials to be there. *)
Lemma get_current_user_401 creds w status detail :
  fst (get_current_user creds w) = inl (HTTPException status detail) ->
  status = 401
  /\ exists c, creds = Some c
     /\ ((detail = "Invalid token"
          /\ (decode_access_token (credentials c) = None
              \/ decode_access_token (credentials c) = Some []))
         \/ (detail = "User not found"
             /\ exists payload user_id,
                  decode_access_token (credentials c) = Some payload
                  /\ fst (int_sub payload w) = inr user_id
                  /\ fst (user_by_id user_id w) = inr None)).
Proof.
  unfold get_current_user, bind.
  destruct creds as [c|]; [|discriminate]. cbn [ret].
  destruct (decode_access_token (credentials c)) as [[|kv payload]|] eqn:D.
  - simpl. intros E. injection E as <- <-.
    split; [reflexivity|]. exists c. split; [reflexivity|]. left. auto.
  - pose proof (int_sub_world (kv :: payload) w) as Hw.
    destruct (int_sub (kv :: payload) w) as [[e|n] w1] eqn:I; simpl in Hw;
      subst w1.
    + simpl. unfold int_sub in I.
      destruct (dict_get "sub" (kv :: payload));
        [destruct (int_of_str s)|]; try discriminate I;
        injection I as <-; discriminate.
    + destruct (user_by_id n w) as [[e|[u|]] w2] eqn:U; simpl.
      * unfold user_by_id, bind, get_db, scalar_one_or_none in U.
        destruct (select_where _ (users (db w))) as [|u [|u' rest]];
          try discriminate U.
        unfold raise in U. injection U as <- _. discriminate.
      * discriminate.
      * intros E. injection E as <- <-.
        split; [reflexivity|]. exists c. split; [reflexivity|]. right.
        split; [reflexivity|]. exists (kv :: payload), n.
        rewrite U, I. auto.
  - simpl. intros E. injection E as <- <-.
    split; [reflexivity|]. exists c. split; [reflexivity|]. left. auto.
Qed.

End Guard.

Section OwnerOnly.

Context {auth : Auth} {builtins : Builtins}.

Lemma differs_true owner user_id :
  differs owner user_id = true <-> owner <> Some user_id.
Proof.
  unfold differs. destruct owner as [uid|].
  - rewrite negb_true_iff, Z.eqb_neq. split; congruence.
  - split; [discriminate | reflexivity].
Qed.

Lemma route_owner_request op authorization code :
  route (owner_request op authorization code)
  = as_current_user authorization (owner_handler op code).
Proof. destruct op; reflexivity. Qed.

Lemma denied_when_absent op code user w :
  ~ In code (link_codes (shortened_links (db w))) ->
  owner_handler op code user w = (inl (HTTPException 403 "Access denied"), w).
Proof.
  intros Habsent.
  destruct op; simpl;
    unfold get_link_stats, delete_short_link, update_short_link,
      links_by_code, bind, get_db, ret;
    rewrite (select_absent _ _ Habsent); reflexivity.
Qed.

Lemma denied_when_not_owned op l user w :
  unique_codes (shortened_links (db w)) ->
  In l (shortened_links (db w)) ->
  ShortenedLink.user_id l <> Some (User.id user) ->
  owner_handler op (ShortenedLink.short_code l) user w
  = (inl (HTTPException 403 "Access denied"), w).
Proof.
  intros Hu Hin Hother. apply differs_true in Hother.
  destruct op; simpl;
    unfold get_link_stats, delete_short_link, update_short_link,
      links_by_code, bind, get_db, ret;
    rewrite (select_present _ _ Hu Hin); simpl; rewrite Hother; reflexivity.
Qed.

(** A guarded request is the handler run for the resolved caller, or the
    response to what [get_current_user] raised. *)
Lemma app_owner_request op authorization code w :
  app (owner_request op authorization code) w
  = match fst (get_current_user (security authorization) w) with
    | inl e => (respond (inl e), w)
    | inr user => serve (owner_handler op code user) w
    end.
Proof.
  unfold app, serve. rewrite route_owner_request.
  unfold as_current_user, bind.
  pose proof (get_current_user_world (security authorization) w) as Hw.
  destruct (get_current_user (security authorization) w) as [[e|u] w'];
    simpl in Hw; subst w'; reflexivity.
Qed.

End OwnerOnly.

(** C1. Take any caller, that is any [Authorization] header or none, one of
    the operations stats, update and delete, and two worlds with the same
    users: in the first no link has the code, in the second a link has it
    and the caller, if the header resolves to a user at all, is not its
    owner (the link belongs to somebody else or to nobody).  The two
    responses are equal and neither is a 200; no world changes.  A caller
    who resolves to a user gets 403 "Access denied" in both. *)
Theorem denial_hides_existence {auth : Auth} {builtins : Builtins}
    op authorization code w1 w2 l :
  users (db w1) = users (db w2) ->
  ~ In code (link_codes (shortened_links (db w1))) ->
  unique_codes (shortened_links (db w2)) ->
  In l (shortened_links (db w2)) ->
  ShortenedLink.short_code l = code ->
  (forall user,
     fst (get_current_user (security authorization) w2) = inr user ->
     ShortenedLink.user_id l <> Some (User.id user)) ->
  fst (app (owner_request op authorization code) w1)
    = fst (app (owner_request op authorization code) w2)
  /\ snd (app (owner_request op authorization code) w1) = w1
  /\ snd (app (owner_request op authorization code) w2) = w2
  /\ (forall body,
        fst (app (owner_request op authorization code) w2) <> HTTP 200 body)
  /\ (forall user,
        fst (get_current_user (security authorization) w2) = inr user ->
        fst (app (owner_request op authorization code) w2) = forbidden).
Proof.
  intros Husers Habsent Hu Hin Hcode Hother. subst code.
  rewrite !app_owner_request.
  rewrite (get_current_user_users (security authorization) w1 w2 Husers).
  destruct (fst (get_current_user (security authorization) w2))
    as [e|user] eqn:Hwho.
  - repeat split; try reflexivity.
    + intros body. destruct e as [status detail| | | | | |];
        try discriminate.
      destruct (get_current_user_401 _ _ _ _ Hwho) as [-> _]. discriminate.
    + intros user Huser. discriminate Huser.
  - unfold serve.
    rewrite (denied_when_absent op _ user w1 Habsent).
    rewrite (denied_when_not_owned op l user w2 Hu Hin (Hother user eq_refl)).
    repeat split; try reflexivity.
    intros body. discriminate.
Qed.

Lemma denial_hides_existence_witness :
  fst (app (auth := Demo.auth) (builtins := Demo.builtins)
           (GetStats (Some "Bearer alice-token") "old")
           (Demo.world [Demo.abc]))
  = fst (app (auth := Demo.auth) (builtins := Demo.builtins)
             (GetStats (Some "Bearer alice-token") "old")
             (Demo.world [Demo.abc; Demo.old])).
Proof.
  refine (proj1 (denial_hides_existence (auth := Demo.auth)
            (builtins := Demo.builtins) Stats (Some "Bearer alice-token")
            "old" (Demo.world [Demo.abc]) (Demo.world [Demo.abc; Demo.old])
            Demo.old _ _ _ _ _ _)).
  - reflexivity.
  - simpl. intros [E|[]]. discriminate E.
  - repeat constructor; simpl; intuition discriminate.
  - simpl. auto.
  - reflexivity.
  - intros user Huser. vm_compute in Huser. injection Huser as <-.
    discriminate.
Defined.

(** C10. Without an [Authorization] header the bearer dependency yields
    [None], and [get_current_user] raises [AttributeError] on its first
    line, before it can reach a 401: each of the four owner-only endpoints
    answers 500 and leaves the world alone.  The 401s of
    [get_current_user] are raised only for a header that is there and
    carries bearer credentials, whose token does not decode ("Invalid
    token") or names no user ("User not found"). *)
Theorem missing_header_not_401 {auth : Auth} {builtins : Builtins}
    w code base_url new_original_url :
  security None = None
  /\ get_current_user None w = (inl none_has_no_credentials, w)
  /\ app (GetStats None code) w = (InternalServerError, w)
  /\ app (GetMyLinks None) w = (InternalServerError, w)
  /\ app (PutLink None code base_url new_original_url) w
     = (InternalServerError, w)
  /\ app (DeleteLink None code) w = (InternalServerError, w)
  /\ (forall body, InternalServerError <> HTTP 401 body)
  /\ (forall authorization status detail,
        fst (get_current_user (security authorization) w)
          = inl (HTTPException status detail) ->
        status = 401
        /\ (detail = "Invalid token" \/ detail = "User not found")
        /\ exists header c,
             authorization = Some header /\ security authorization = Some c).
Proof.
  split; [reflexivity|]. split; [reflexivity|].
  split; [reflexivity|]. split; [reflexivity|].
  split; [reflexivity|]. split; [reflexivity|].
  split; [discriminate|].
  intros authorization status detail H.
  destruct (get_current_user_401 _ _ _ _ H) as [-> [c [Hc Hd]]].
  split; [reflexivity|]. split.
  - destruct Hd as [[-> _]|[-> _]]; auto.
  - destruct authorization as [header|]; [|discriminate Hc].
    exists header, c. auto.
Qed.

Lemma missing_header_not_401_witness :
  fst (get_current_user (auth := Demo.auth) (builtins := Demo.builtins)
         (security (Some "Bearer nonsense")) (Demo.world []))
    = inl (HTTPException 401 "Invalid token")
  /\ exists header c,
       Some "Bearer nonsense" = Some header
       /\ security (Some "Bearer nonsense") = Some c.
Proof.
  split; [reflexivity|].
  destruct (missing_header_not_401 (auth := Demo.auth)
              (builtins := Demo.builtins) (Demo.world []) "abc" "" "")
    as (_ & _ & _ & _ & _ & _ & _ & H).
  destruct (H (Some "Bearer nonsense") 401 "Invalid token" eq_refl)
    as (_ & _ & Hex).
  exact Hex.
Defined.

(** ** What each handler does to the world *)

Lemma redirect_found_run code l w :
  select_where (short_code_is code) (links_of w) = [l] ->
  redirect_to_original_url code w
  = if live_at l (clock w (clock_reads w))
    then (inr (RedirectResponse (ShortenedLink.original_url l)), visited l w)
    else (inl (HTTPException 410 "Link has expired"), after_read w).
Proof.
  intros Hsel.
  unfold redirect_to_original_url, links_by_code, bind, get_db, ret.
  unfold links_of in Hsel. rewrite Hsel. simpl.
  unfold has_expired, live_at, visited, visit_read, visit, links_of.
  destruct (ShortenedLink.expires_at l) as [t|].
  - unfold bind, utcnow, ret. simpl.
    destruct (t <? clock w (clock_reads w)); reflexivity.
  - reflexivity.
Qed.

Lemma redirect_other_run code w :
  (forall l, select_where (short_code_is code) (links_of w) <> [l]) ->
  snd (redirect_to_original_url code w) = w.
Proof.
  intros Hsel.
  unfold redirect_to_original_url, links_by_code, bind, get_db, ret.
  fold (links_of w).
  destruct (select_where (short_code_is code) (links_of w))
    as [|l [|l' rest]]; try reflexivity.
  now destruct (Hsel l).
Qed.

Section Effects.

Context {auth : Auth} {builtins : Builtins}.

Lemma register_effect username password w :
  links_of (snd (register username password w)) = links_of w
  /\ clock (snd (register username password w)) = clock w
  /\ clock_reads (snd (register username password w)) = clock_reads w.
Proof.
  unfold register, bind, get_db.
  destruct (existsb _ (users (db w))); repeat split; reflexivity.
Qed.

Lemma login_effect username password w :
  snd (login username password w) = w.
Proof.
  unfold login, bind, get_db, scalar_one_or_none.
  destruct (select_where _ (users (db w))) as [|u [|u' rest]];
    try reflexivity.
  simpl. destruct (verify_password password (User.hashed_password u));
    reflexivity.
Qed.

Lemma get_current_user_optional_effect authorization w :
  snd (get_current_user_optional authorization w) = w.
Proof.
  unfold get_current_user_optional.
  destruct (truthy_str authorization) as [h|]; [|reflexivity].
  destruct (partition_space h) as [[s sep] token].
  destruct (negb (lower s =? "bearer")%string || (token =? "")%string)%bool;
    [reflexivity|].
  destruct (decode_access_token token) as [[|kv payload]|];
    try reflexivity.
  unfold bind.
  pose proof (int_sub_world (kv :: payload) w) as Hi.
  destruct (int_sub (kv :: payload) w) as [[e|n] w1]; simpl in Hi; subst w1;
    [reflexivity|].
  apply user_by_id_world.
Qed.

Lemma get_link_stats_effect code user w :
  snd (get_link_stats code user w) = w.
Proof.
  unfold get_link_stats, links_by_code, bind, get_db, ret,
    scalar_one_or_none.
  destruct (select_where _ (shortened_links (db w))) as [|l [|l' rest]];
    try reflexivity.
  simpl. destruct (differs _ _); reflexivity.
Qed.

Lemma get_my_links_effect user w : snd (get_my_links user w) = w.
Proof. reflexivity. Qed.

Lemma update_short_link_effect code base_url url user w :
  snd (update_short_link code base_url url user w) = w
  /\ (forall reply,
        fst (update_short_link code base_url url user w) <> inr reply)
  \/ exists l,
       In l (links_of w) /\ ShortenedLink.short_code l = code
       /\ snd (update_short_link code base_url url user w)
          = set_db (mkDB (users (db w))
                      (retarget (ShortenedLink.id l) url (links_of w))) w.
Proof.
  unfold update_short_link, links_by_code, bind, get_db, ret,
    scalar_one_or_none.
  pose proof (select_code (shortened_links (db w)) code) as Hsel.
  destruct (select_where _ (shortened_links (db w))) as [|l [|l' rest]].
  - left. split; [reflexivity | discriminate].
  - simpl. destruct (differs _ _).
    + left. split; [reflexivity | discriminate].
    + right. exists l. destruct (Hsel l (or_introl eq_refl)) as [Hin Hcode].
      split; [exact Hin|]. split; [exact Hcode|]. reflexivity.
  - left. split; [reflexivity | discriminate].
Qed.

Lemma delete_short_link_effect code user w :
  snd (delete_short_link code user w) = w
  \/ exists l,
       snd (delete_short_link code user w)
       = set_db (mkDB (users (db w))
                   (without (ShortenedLink.id l) (links_of w))) w.
Proof.
  unfold delete_short_link, links_by_code, bind, get_db, ret,
    scalar_one_or_none.
  destruct (select_where _ (shortened_links (db w))) as [|l [|l' rest]].
  - now left.
  - simpl. destruct (differs _ _); [now left|]. right. now exists l.
  - now left.
Qed.

(** The world after a guarded request is the world after its handler, or
    the world itself when the caller was not resolved. *)
Lemma as_current_user_effect authorization handler w :
  snd (as_current_user authorization handler w) = w
  /\ (forall reply,
        fst (as_current_user authorization handler w) <> inr reply)
  \/ exists user,
       as_current_user authorization handler w = handler user w.
Proof.
  unfold as_current_user, bind.
  pose proof (get_current_user_world (security authorization) w) as Hw.
  destruct (get_current_user (security authorization) w) as [[e|u] w'];
    simpl in Hw; subst w'.
  - left. split; [reflexivity | discriminate].
  - right. now exists u.
Qed.

Lemma shorten_effect authorization base_url data w :
  exists user,
    route (PostShorten authorization base_url data) w
    = shorten_link data base_url user w
    \/ snd (route (PostShorten authorization base_url data) w) = w.
Proof.
  unfold route, bind.
  pose proof (get_current_user_optional_effect authorization w) as Hw.
  destruct (get_current_user_optional authorization w) as [[e|u] w'];
    simpl in Hw; subst w'.
  - exists None. now right.
  - exists u. now left.
Qed.

End Effects.

(** ** The usage fields are framed *)

Lemma same_usage_refl l : same_usage l l.
Proof. repeat split. Qed.

Lemma usage_kept_refl rows : usage_kept rows rows.
Proof.
  exists rows, []. split; [now rewrite app_nil_r|].
  induction rows; constructor; auto using same_usage_refl.
Qed.

Lemma usage_kept_append rows row : usage_kept rows (rows ++ [row]).
Proof.
  exists rows, [row]. split; [reflexivity|].
  induction rows; constructor; auto using same_usage_refl.
Qed.

Lemma usage_kept_retarget key url rows :
  usage_kept rows (retarget key url rows).
Proof.
  exists (retarget key url rows), []. split; [now rewrite app_nil_r|].
  unfold retarget. induction rows as [|r rows IH]; simpl; constructor; auto.
  destruct (ShortenedLink.id r =? key); repeat split.
Qed.

Lemma retarget_In key url l rows :
  In l rows -> ShortenedLink.id l = key ->
  In (ShortenedLink.with_original_url url l) (retarget key url rows).
Proof.
  intros Hin Hkey. unfold retarget. apply in_map_iff. exists l.
  split; [|exact Hin]. apply Z.eqb_eq in Hkey. now rewrite Hkey.
Qed.

Section Frame.

Context {auth : Auth} {builtins : Builtins}.

Lemma get_original_url_effect code w : snd (get_original_url code w) = w.
Proof.
  unfold get_original_url, links_by_code, bind, get_db, ret,
    scalar_one_or_none.
  destruct (select_where _ (shortened_links (db w))) as [|l [|l' rest]];
    reflexivity.
Qed.

Lemma snd_app r w : snd (app r w) = snd (route r w).
Proof. unfold app, serve. now destruct (route r w). Qed.

Lemma shorten_link_links data base_url user w :
  links_of (snd (shorten_link data base_url user w)) = links_of w
  \/ links_of (snd (shorten_link data base_url user w))
     = (links_of w ++ [new_link data user w])%list
     /\ ~ In (chosen_code data w) (link_codes (links_of w)).
Proof.
  rewrite shorten_link_run. unfold links_of.
  destruct (existsb _ (shortened_links (db w))) eqn:E.
  - now left.
  - right. split; [reflexivity|].
    rewrite <- existsb_short_code, E. discriminate.
Qed.

Lemma request_frame r w :
  is_redirect r = false ->
  (is_delete r = false ->
   usage_kept (links_of w) (links_of (snd (app r w))))
  /\ (is_delete r = true ->
      exists keep, links_of (snd (app r w)) = filter keep (links_of w)).
Proof.
  intros Hr. rewrite snd_app.
  destruct r as [u p|u p|a b d|c|c|a c|a|a c|a c b url];
    try discriminate Hr;
    (split; intros Hd; try discriminate Hd); clear Hd.
  - cbn [route]. destruct (register_effect u p w) as [-> _]. apply usage_kept_refl.
  - cbn [route]. rewrite login_effect. apply usage_kept_refl.
  - destruct (shorten_effect a b d w) as [user [->| ->]];
      [|apply usage_kept_refl].
    destruct (shorten_link_links d b user w) as [-> | [-> _]];
      [apply usage_kept_refl | apply usage_kept_append].
  - cbn [route]. rewrite get_original_url_effect. apply usage_kept_refl.
  - cbn [route]. destruct (as_current_user_effect a (get_link_stats c) w)
      as [[-> _]|[user ->]]; [|rewrite get_link_stats_effect];
      apply usage_kept_refl.
  - cbn [route]. destruct (as_current_user_effect a get_my_links w)
      as [[-> _]|[user ->]]; apply usage_kept_refl.
  - cbn [route].
    destruct (as_current_user_effect a (delete_short_link c) w)
      as [[-> _]|[user ->]].
    + exists (fun _ => true). clear. induction (links_of w) as [|x xs IH];
        simpl; congruence.
    + destruct (delete_short_link_effect c user w) as [-> | [l ->]].
      * exists (fun _ => true). clear.
        induction (links_of w) as [|x xs IH]; simpl; congruence.
      * eexists. reflexivity.
  - cbn [route]. destruct (as_current_user_effect a (update_short_link c b url) w)
      as [[-> _]|[user ->]]; [apply usage_kept_refl|].
    destruct (update_short_link_effect c b url user w)
      as [[-> _] | [l [_ [_ ->]]]];
      [apply usage_kept_refl | apply usage_kept_retarget].
Qed.

Lemma update_rewrites_url a code base_url url w reply :
  fst (route (PutLink a code base_url url) w) = inr reply ->
  exists l,
    In l (links_of w) /\ ShortenedLink.short_code l = code
    /\ links_of (snd (route (PutLink a code base_url url) w))
       = retarget (ShortenedLink.id l) url (links_of w)
    /\ In (ShortenedLink.with_original_url url l)
          (links_of (snd (route (PutLink a code base_url url) w))).
Proof.
  simpl.
  destruct (as_current_user_effect a (update_short_link code base_url url) w)
    as [[_ Hno]|[user ->]]; [intros H; now destruct (Hno reply)|].
  destruct (update_short_link_effect code base_url url user w)
    as [[_ Hno] | [l [Hin [Hcode ->]]]]; [intros H; now destruct (Hno reply)|].
  intros _. exists l. split; [exact Hin|]. split; [exact Hcode|].
  split; [reflexivity|]. now apply retarget_In.
Qed.

End Frame.

(** C8. Any request that is not a resolution leaves the usage of the
    stored links alone.  Registration, login, lookup, stats, list-mine,
    update and creation keep every row in place with its [id],
    [short_code], [created_at], [expires_at], [click_count], [last_used_at]
    and owner, creation at most appending a row; a delete only removes
    rows.  An update that succeeds rewrites the [original_url] of the
    link with the requested code, and by the first part nothing else. *)
Theorem usage_changes_only_on_resolution {auth : Auth} {builtins : Builtins}
    r w :
  is_redirect r = false ->
  (is_delete r = false ->
   usage_kept (links_of w) (links_of (snd (app r w))))
  /\ (is_delete r = true ->
      exists keep, links_of (snd (app r w)) = filter keep (links_of w))
  /\ (forall a code base_url url reply,
        r = PutLink a code base_url url ->
        fst (route r w) = inr reply ->
        exists l,
          In l (links_of w) /\ ShortenedLink.short_code l = code
          /\ links_of (snd (app r w))
             = retarget (ShortenedLink.id l) url (links_of w)
          /\ In (ShortenedLink.with_original_url url l)
                (links_of (snd (app r w)))).
Proof.
  intros Hr. destruct (request_frame r w Hr) as [Hkeep Hdel].
  split; [exact Hkeep|]. split; [exact Hdel|].
  intros a code base_url url reply -> Hok. rewrite snd_app.
  exact (update_rewrites_url a code base_url url w reply Hok).
Qed.

Lemma usage_changes_only_on_resolution_witness :
  is_redirect (PutLink (Some "Bearer bob-token") "old" "http://sho.rt/"
                       "https://newer.example") = false
  /\ usage_kept
       (links_of (Demo.world [Demo.abc; Demo.old]))
       (links_of (snd (app (auth := Demo.auth) (builtins := Demo.builtins)
                         (PutLink (Some "Bearer bob-token") "old"
                                  "http://sho.rt/" "https://newer.example")
                         (Demo.world [Demo.abc; Demo.old])))).
Proof.
  split; [reflexivity|].
  exact (proj1 (usage_changes_only_on_resolution (auth := Demo.auth)
                  (builtins := Demo.builtins)
                  (PutLink (Some "Bearer bob-token") "old" "http://sho.rt/"
                           "https://newer.example")
                  (Demo.world [Demo.abc; Demo.old]) eq_refl) eq_refl).
Defined.

(** ** An invariant of the running system *)

Lemma consistent_later rows clock reads reads' :
  (reads <= reads')%nat ->
  consistent rows clock reads -> consistent rows clock reads'.
Proof.
  intros Hle (Hids & Hcodes & Hused). repeat split; auto.
  intros l t Hin Ht. destruct (Hused l t Hin Ht) as [k [Hk ->]].
  exists k. split; [lia | reflexivity].
Qed.

Lemma consistent_append rows row clock reads :
  ShortenedLink.id row = next_id (link_ids rows) ->
  ~ In (ShortenedLink.short_code row) (link_codes rows) ->
  ShortenedLink.last_used_at row = None ->
  consistent rows clock reads -> consistent (rows ++ [row]) clock reads.
Proof.
  intros Hid Hcode Hnone (Hids & Hcodes & Hused).
  unfold consistent, unique_ids, unique_codes, link_ids, link_codes in *.
  rewrite !map_app. simpl. repeat split.
  - apply NoDup_app; [exact Hids | repeat constructor; simpl; tauto|].
    intros i Hin [<-|[]]. rewrite Hid in Hin.
    exact (next_id_fresh _ Hin).
  - apply NoDup_app; [exact Hcodes | repeat constructor; simpl; tauto|].
    intros c Hin [<-|[]]. exact (Hcode Hin).
  - intros l t Hin Ht. apply in_app_or in Hin.
    destruct Hin as [Hin|[<-|[]]]; [eauto | congruence].
Qed.

Lemma retarget_ids key url rows :
  link_ids (retarget key url rows) = link_ids rows.
Proof.
  unfold link_ids, retarget. rewrite map_map. apply map_ext.
  intros r. now destruct (ShortenedLink.id r =? key).
Qed.

Lemma retarget_codes key url rows :
  link_codes (retarget key url rows) = link_codes rows.
Proof.
  unfold link_codes, retarget. rewrite map_map. apply map_ext.
  intros r. now destruct (ShortenedLink.id r =? key).
Qed.

Lemma consistent_retarget key url rows clock reads :
  consistent rows clock reads ->
  consistent (retarget key url rows) clock reads.
Proof.
  intros (Hids & Hcodes & Hused).
  unfold consistent, unique_ids, unique_codes.
  rewrite retarget_ids, retarget_codes. repeat split; auto.
  intros l t Hin Ht. unfold retarget in Hin. apply in_map_iff in Hin.
  destruct Hin as [r [<- Hin]].
  destruct (ShortenedLink.id r =? key); apply (Hused r t Hin); exact Ht.
Qed.

Lemma visit_ids key clicks now rows :
  link_ids (visit key clicks now rows) = link_ids rows.
Proof.
  unfold link_ids, visit. rewrite map_map. apply map_ext.
  intros r. now destruct (ShortenedLink.id r =? key).
Qed.

Lemma visit_codes key clicks now rows :
  link_codes (visit key clicks now rows) = link_codes rows.
Proof.
  unfold link_codes, visit. rewrite map_map. apply map_ext.
  intros r. now destruct (ShortenedLink.id r =? key).
Qed.

Lemma consistent_visit key clicks k rows clock reads :
  (reads <= S k)%nat ->
  consistent rows clock reads ->
  consistent (visit key clicks (clock k) rows) clock (S k).
Proof.
  intros Hk (Hids & Hcodes & Hused).
  unfold consistent, unique_ids, unique_codes.
  rewrite visit_ids, visit_codes. repeat split; auto.
  intros l t Hin Ht. unfold visit in Hin. apply in_map_iff in Hin.
  destruct Hin as [r [<- Hin]].
  destruct (ShortenedLink.id r =? key).
  - simpl in Ht. injection Ht as <-. exists k. split; [lia | reflexivity].
  - destruct (Hused r t Hin Ht) as [j [Hj ->]].
    exists j. split; [lia | reflexivity].
Qed.

Lemma NoDup_map_filter {A B} (f : A -> B) (p : A -> bool) rows :
  NoDup (map f rows) -> NoDup (map f (filter p rows)).
Proof.
  induction rows as [|r rows IH]; simpl; intros Hnd; [constructor|].
  inversion Hnd as [|x xs Hnot Hrest]; subst.
  destruct (p r); simpl; [|auto].
  constructor; [|auto].
  intros Hin. apply Hnot. apply in_map_iff in Hin.
  destruct Hin as [y [Hy Hin]]. apply filter_In in Hin.
  rewrite <- Hy. apply in_map. tauto.
Qed.

Lemma consistent_filter keep rows clock reads :
  consistent rows clock reads -> consistent (filter keep rows) clock reads.
Proof.
  intros (Hids & Hcodes & Hused).
  unfold consistent, unique_ids, unique_codes, link_ids, link_codes.
  repeat split; try now apply NoDup_map_filter.
  intros l t Hin Ht. apply filter_In in Hin. apply (Hused l t); tauto.
Qed.

Section Invariant.

Context {auth : Auth} {builtins : Builtins}.

Lemma invariant_idle w w' :
  links_of w' = links_of w -> clock w' = clock w ->
  (clock_reads w <= clock_reads w')%nat ->
  invariant w -> invariant w'.
Proof.
  unfold invariant. intros -> -> Hle [Hmono Hc].
  split; [exact Hmono|]. exact (consistent_later _ _ _ _ Hle Hc).
Qed.

Lemma shorten_link_invariant data base_url user w :
  invariant w -> invariant (snd (shorten_link data base_url user w)).
Proof.
  intros Hinv. rewrite shorten_link_run.
  destruct (existsb _ (shortened_links (db w))) eqn:E.
  - apply (invariant_idle w); auto.
  - destruct Hinv as [Hmono Hc]. split; [exact Hmono|].
    unfold with_new_link, links_of. simpl.
    apply consistent_later with (reads := clock_reads w); [lia|].
    apply consistent_append; try reflexivity; [|exact Hc].
    simpl. rewrite <- existsb_short_code. unfold links_of. rewrite E.
    discriminate.
Qed.

Lemma redirect_invariant code w :
  invariant w -> invariant (snd (redirect_to_original_url code w)).
Proof.
  intros Hinv.
  destruct (select_where (short_code_is code) (links_of w))
    as [|l [|l' rest]] eqn:Hsel.
  - rewrite redirect_other_run; [exact Hinv|]. rewrite Hsel. discriminate.
  - rewrite (redirect_found_run code l w Hsel).
    destruct (live_at l (clock w (clock_reads w))).
    + destruct Hinv as [Hmono Hc]. split; [exact Hmono|].
      unfold visited, links_of. simpl.
      apply consistent_visit with (reads := clock_reads w); [|exact Hc].
      unfold visit_read. destruct (ShortenedLink.expires_at l); lia.
    + apply (invariant_idle w); simpl; auto.
  - rewrite redirect_other_run; [exact Hinv|]. rewrite Hsel. discriminate.
Qed.

Lemma route_invariant r w : invariant w -> invariant (snd (route r w)).
Proof.
  intros Hinv.
  destruct r as [u p|u p|a b d|c|c|a c|a|a c|a c b url].
  - destruct (register_effect u p w) as (Hl & Hc & Hr).
    apply (invariant_idle w); auto. cbn [route]. lia.
  - cbn [route]. now rewrite login_effect.
  - destruct (shorten_effect a b d w) as [user [->| ->]];
      [now apply shorten_link_invariant | exact Hinv].
  - now apply redirect_invariant.
  - cbn [route]. now rewrite get_original_url_effect.
  - cbn [route]. destruct (as_current_user_effect a (get_link_stats c) w)
      as [[-> _]|[user ->]]; [|rewrite get_link_stats_effect]; exact Hinv.
  - cbn [route]. destruct (as_current_user_effect a get_my_links w)
      as [[-> _]|[user ->]]; exact Hinv.
  - cbn [route]. destruct (as_current_user_effect a (delete_short_link c) w)
      as [[-> _]|[user ->]]; [exact Hinv|].
    destruct (delete_short_link_effect c user w) as [-> | [l ->]];
      [exact Hinv|].
    destruct Hinv as [Hmono Hc]. split; [exact Hmono|].
    unfold links_of, without. simpl. now apply consistent_filter.
  - cbn [route].
    destruct (as_current_user_effect a (update_short_link c b url) w)
      as [[-> _]|[user ->]]; [exact Hinv|].
    destruct (update_short_link_effect c b url user w)
      as [[-> _] | [l [_ [_ ->]]]]; [exact Hinv|].
    destruct Hinv as [Hmono Hc]. split; [exact Hmono|].
    unfold links_of. simpl. now apply consistent_retarget.
Qed.

Lemma step_invariant e w : invariant w -> invariant (step e w).
Proof.
  intros Hinv. destruct e as [r|]; simpl.
  - rewrite snd_app. now apply route_invariant.
  - apply (invariant_idle w); simpl; auto.
Qed.

(** Every world the system can get into is consistent. *)
Lemma reachable_invariant w : reachable w -> invariant w.
Proof.
  induction 1 as [clock entropy Hmono | w e _ IH].
  - split; [exact Hmono|].
    repeat split; try constructor. intros l t [].
  - now apply step_invariant.
Qed.

End Invariant.

Lemma same_key_same_row rows r l :
  unique_ids rows -> In r rows -> In l rows ->
  ShortenedLink.id r = ShortenedLink.id l -> r = l.
Proof.
  unfold unique_ids, link_ids.
  induction rows as [|x rows IH]; simpl; intros Hnd Hr Hl Hid;
    [contradiction|].
  inversion Hnd as [|i ids Hnot Hrest]; subst.
  destruct Hr as [->|Hr], Hl as [->|Hl]; auto.
  - exfalso. apply Hnot. rewrite Hid. now apply in_map.
  - exfalso. apply Hnot. rewrite <- Hid. now apply in_map.
Qed.

Lemma visit_In l clicks now rows :
  In l rows ->
  In (ShortenedLink.with_visit clicks now l)
     (visit (ShortenedLink.id l) clicks now rows).
Proof.
  intros Hin. unfold visit. apply in_map_iff. exists l.
  split; [|exact Hin]. now rewrite Z.eqb_refl.
Qed.

Lemma visit_others l clicks now rows r :
  unique_ids rows -> In l rows -> In r rows -> r <> l ->
  In r (visit (ShortenedLink.id l) clicks now rows).
Proof.
  intros Hu Hl Hr Hne. unfold visit. apply in_map_iff. exists r.
  split; [|exact Hr].
  destruct (ShortenedLink.id r =? ShortenedLink.id l) eqn:E; [|reflexivity].
  apply Z.eqb_eq in E. destruct Hne.
  exact (same_key_same_row rows r l Hu Hr Hl E).
Qed.

(** C2. In a world the system can reach, under a clock whose readings do
    not go back, take a stored link [l] that has not expired at the
    reading of the expiry test.  Resolving its code redirects (307) to
    [l]'s [original_url] and commits one change: the row of [l] now has
    [click_count] one higher and [last_used_at] equal to the reading taken
    for it, all its other fields as before, and it is what the code now
    selects; that reading is not before the previous [last_used_at]; every
    other row is as it was. *)
Theorem resolution_counts_one_visit {auth : Auth} {builtins : Builtins} w l :
  reachable w ->
  In l (links_of w) ->
  live_at l (clock w (clock_reads w)) = true ->
  serve (redirect_to_original_url (ShortenedLink.short_code l)) w
    = (Redirect 307 (ShortenedLink.original_url l), visited l w)
  /\ select_where (short_code_is (ShortenedLink.short_code l))
                  (links_of (visited l w))
     = [ShortenedLink.with_visit (ShortenedLink.click_count l + 1)
                                 (clock w (visit_read l w)) l]
  /\ ShortenedLink.click_count
       (ShortenedLink.with_visit (ShortenedLink.click_count l + 1)
                                 (clock w (visit_read l w)) l)
     = ShortenedLink.click_count l + 1
  /\ ShortenedLink.last_used_at
       (ShortenedLink.with_visit (ShortenedLink.click_count l + 1)
                                 (clock w (visit_read l w)) l)
     = Some (clock w (visit_read l w))
  /\ (forall previous,
        ShortenedLink.last_used_at l = Some previous ->
        previous <= clock w (visit_read l w))
  /\ (forall r, In r (links_of w) -> r <> l -> In r (links_of (visited l w))).
Proof.
  intros Hreach Hin Hlive.
  destruct (reachable_invariant w Hreach) as (Hmono & Hids & Hcodes & Hused).
  split; [|split; [|split; [reflexivity|split; [reflexivity|split]]]].
  - unfold serve.
    rewrite (redirect_found_run _ l w (select_present l _ Hcodes Hin)).
    now rewrite Hlive.
  - unfold visited, links_of. simpl.
    apply (select_present
             (ShortenedLink.with_visit (ShortenedLink.click_count l + 1)
                                       (clock w (visit_read l w)) l)).
    + unfold unique_codes. now rewrite visit_codes.
    + now apply visit_In.
  - intros previous Hprev.
    destruct (Hused l previous Hin Hprev) as [k [Hk ->]].
    apply Hmono. unfold visit_read.
    destruct (ShortenedLink.expires_at l); lia.
  - intros r Hr Hne. unfold visited, links_of. simpl.
    now apply visit_others.
Qed.

Lemma resolution_counts_one_visit_witness :
  In (ShortenedLink.mk 1 "https://example.com" "abc" 0 None 1 (Some 1) None)
     (links_of
        (step (auth := Demo.auth) (builtins := Demo.builtins)
           (Incoming (GetRedirect "abc"))
           (step (auth := Demo.auth) (builtins := Demo.builtins)
              (Incoming (PostShorten None "http://sho.rt/"
                 (mkShorten "https://example.com" (Some "abc") None)))
              (startup Demo.ticking (fun _ => O)))))
  /\ forall previous,
       ShortenedLink.last_used_at
         (ShortenedLink.mk 1 "https://example.com" "abc" 0 None 1 (Some 1)
                           None) = Some previous ->
       previous
       <= clock
            (step (auth := Demo.auth) (builtins := Demo.builtins)
               (Incoming (GetRedirect "abc"))
               (step (auth := Demo.auth) (builtins := Demo.builtins)
                  (Incoming (PostShorten None "http://sho.rt/"
                     (mkShorten "https://example.com" (Some "abc") None)))
                  (startup Demo.ticking (fun _ => O))))
            (visit_read
               (ShortenedLink.mk 1 "https://example.com" "abc" 0 None 1
                                 (Some 1) None)
               (step (auth := Demo.auth) (builtins := Demo.builtins)
                  (Incoming (GetRedirect "abc"))
                  (step (auth := Demo.auth) (builtins := Demo.builtins)
                     (Incoming (PostShorten None "http://sho.rt/"
                        (mkShorten "https://example.com" (Some "abc") None)))
                     (startup Demo.ticking (fun _ => O))))).
Proof.
  assert (Hmono : nondecreasing Demo.ticking)
    by (intros i j Hij; unfold Demo.ticking; lia).
  assert (Hin : In (ShortenedLink.mk 1 "https://example.com" "abc" 0 None 1
                      (Some 1) None)
     (links_of
        (step (auth := Demo.auth) (builtins := Demo.builtins)
           (Incoming (GetRedirect "abc"))
           (step (auth := Demo.auth) (builtins := Demo.builtins)
              (Incoming (PostShorten None "http://sho.rt/"
                 (mkShorten "https://example.com" (Some "abc") None)))
              (startup Demo.ticking (fun _ => O))))))
    by (left; reflexivity).
  split; [exact Hin|].
  refine (proj1 (proj2 (proj2 (proj2 (proj2
    (resolution_counts_one_visit (auth := Demo.auth)
       (builtins := Demo.builtins) _ _
       (reach_step _ _ (reach_step _ _ (reach_startup _ _ Hmono)))
       Hin _)))))).
  reflexivity.
Defined.

(** ** Further properties of the handlers *)

Lemma unique_codes_append rows row :
  unique_codes rows ->
  ~ In (ShortenedLink.short_code row) (link_codes rows) ->
  unique_codes (rows ++ [row]).
Proof.
  unfold unique_codes, link_codes. intros Hu Hnot.
  rewrite map_app. simpl.
  apply NoDup_app; [exact Hu | repeat constructor; simpl; tauto|].
  intros c Hin [<-|[]]. exact (Hnot Hin).
Qed.

Lemma unique_ids_append rows row :
  unique_ids rows ->
  ShortenedLink.id row = next_id (link_ids rows) ->
  unique_ids (rows ++ [row]).
Proof.
  unfold unique_ids, link_ids. intros Hu Hid.
  rewrite map_app. simpl.
  apply NoDup_app; [exact Hu | repeat constructor; simpl; tauto|].
  intros i Hin [<-|[]]. rewrite Hid in Hin. exact (next_id_fresh _ Hin).
Qed.


(** X2. Creation followed by lookup.  When the table has unique codes and
    the request's code is free, the world after the creation still has
    unique codes and unique keys, and looking the new code up in it
    answers 200 with the [original_url] of the request. *)
Theorem created_link_is_found data base_url user w :
  unique_codes (links_of w) ->
  unique_ids (links_of w) ->
  ~ In (chosen_code data w) (link_codes (links_of w)) ->
  unique_codes (links_of (snd (shorten_link data base_url user w)))
  /\ unique_ids (links_of (snd (shorten_link data base_url user w)))
  /\ serve (get_original_url (chosen_code data w))
           (snd (shorten_link data base_url user w))
     = (HTTP 200 (JObj [("original_url", JStr (req_original_url data))]),
        snd (shorten_link data base_url user w)).
Proof.
  intros Hcodes Hids Hfree.
  assert (E : existsb (short_code_is (chosen_code data w))
                (shortened_links (db w)) = false).
  { destruct (existsb _ (shortened_links (db w))) eqn:E; [|reflexivity].
    apply existsb_short_code in E. now destruct Hfree. }
  rewrite shorten_link_run, E. cbn [snd].
  assert (Hc' : unique_codes (links_of w ++ [new_link data user w]))
    by (apply unique_codes_append; auto).
  split; [exact Hc'|]. split; [now apply unique_ids_append|].
  unfold serve, get_original_url, links_by_code, bind, get_db, ret.
  cbn [db with_new_link shortened_links].
  change (chosen_code data w)
    with (ShortenedLink.short_code (new_link data user w)).
  rewrite (select_present (new_link data user w)
             (shortened_links (db w) ++ [new_link data user w]) Hc').
  - reflexivity.
  - apply in_or_app. right. now left.
Qed.

Lemma created_link_is_found_witness :
  serve (get_original_url "mine")
    (snd (shorten_link (mkShorten "https://example.net" (Some "mine") None)
                       "http://sho.rt/" (Some Demo.bob)
                       (Demo.world [Demo.abc; Demo.old])))
  = (HTTP 200 (JObj [("original_url", JStr "https://example.net")]),
     snd (shorten_link (mkShorten "https://example.net" (Some "mine") None)
                       "http://sho.rt/" (Some Demo.bob)
                       (Demo.world [Demo.abc; Demo.old]))).
Proof.
  refine (proj2 (proj2 (created_link_is_found
            (mkShorten "https://example.net" (Some "mine") None)
            "http://sho.rt/" (Some Demo.bob)
            (Demo.world [Demo.abc; Demo.old]) _ _ _))).
  - repeat constructor; simpl; intuition discriminate.
  - repeat constructor; simpl; intuition discriminate.
  - simpl. intuition discriminate.
Defined.

(** X3. The expiry test is strict.  For a stored link under unique codes,
    resolution answers 410 exactly when [expires_at] is set and lies
    strictly before the clock reading; a link without [expires_at], or one
    whose [expires_at] equals the reading, is redirected. *)
Theorem expiry_is_strict w l :
  unique_codes (links_of w) ->
  In l (links_of w) ->
  (fst (serve (redirect_to_original_url (ShortenedLink.short_code l)) w)
     = gone
   <-> exists t, ShortenedLink.expires_at l = Some t
                 /\ t < clock w (clock_reads w))
  /\ (fst (serve (redirect_to_original_url (ShortenedLink.short_code l)) w)
        = Redirect 307 (ShortenedLink.original_url l)
      <-> forall t, ShortenedLink.expires_at l = Some t ->
                    clock w (clock_reads w) <= t).
Proof.
  intros Hu Hin. unfold serve.
  rewrite (redirect_found_run _ l w (select_present l _ Hu Hin)).
  unfold live_at.
  destruct (ShortenedLink.expires_at l) as [t|].
  - destruct (Z.ltb_spec t (clock w (clock_reads w))) as [Hlt|Hge]; simpl.
    + split; split; try discriminate.
      * intros _. exists t. auto.
      * reflexivity.
      * intros H. specialize (H t eq_refl). lia.
    + split; split; try discriminate.
      * intros [t' [E Ht']]. injection E as <-. lia.
      * intros _ t' E. injection E as <-. lia.
      * reflexivity.
  - simpl. split; split; try discriminate.
    + intros [t [E _]]. discriminate E.
    + reflexivity.
Qed.

Lemma expiry_is_strict_witness :
  fst (serve (redirect_to_original_url "old")
             (Demo.world [Demo.abc; Demo.old])) = gone.
Proof.
  apply (proj1 (expiry_is_strict (Demo.world [Demo.abc; Demo.old]) Demo.old
                  ltac:(repeat constructor; simpl; intuition discriminate)
                  ltac:(simpl; auto))).
  exists (95 * Demo.day). split; reflexivity.
Defined.

Lemma same_code_same_row rows r l :
  unique_codes rows -> In r rows -> In l rows ->
  ShortenedLink.short_code r = ShortenedLink.short_code l -> r = l.
Proof.
  intros Hu Hr Hl Hcode.
  pose proof (select_present l rows Hu Hl) as Hsel.
  assert (Hin : In r (select_where (short_code_is (ShortenedLink.short_code l))
                        rows)).
  { unfold select_where. apply filter_In. split; [exact Hr|].
    now apply short_code_is_true. }
  rewrite Hsel in Hin. destruct Hin as [<-|[]]. reflexivity.
Qed.

Lemma owner_does_not_differ user_id : differs (Some user_id) user_id = false.
Proof. unfold differs. now rewrite Z.eqb_refl. Qed.

Lemma without_spec key rows r :
  In r (without key rows) <-> In r rows /\ ShortenedLink.id r <> key.
Proof.
  unfold without. rewrite filter_In, negb_true_iff, Z.eqb_neq. tauto.
Qed.

Lemma retarget_others key url rows r :
  In r rows -> ShortenedLink.id r <> key -> In r (retarget key url rows).
Proof.
  intros Hr Hne. unfold retarget. apply in_map_iff. exists r.
  split; [|exact Hr]. apply Z.eqb_neq in Hne. now rewrite Hne.
Qed.

Section Owners.

Context {auth : Auth} {builtins : Builtins}.

Lemma as_current_user_resolved authorization handler w user :
  fst (get_current_user (security authorization) w) = inr user ->
  as_current_user authorization handler w = handler user w.
Proof.
  intros Hwho. unfold as_current_user, bind.
  pose proof (get_current_user_world (security authorization) w) as Hw.
  destruct (get_current_user (security authorization) w) as [[e|u] w'];
    simpl in Hw, Hwho; subst w'; [discriminate|].
  now injection Hwho as ->.
Qed.

End Owners.

(** X4. A link without an owner is closed to every caller.  Under unique
    codes, stats, update and delete on its code never answer 200 and never
    change the world, whatever the [Authorization] header; a caller that
    resolves to a user gets 403 "Access denied". *)
Theorem ownerless_link_is_closed {auth : Auth} {builtins : Builtins}
    op authorization w l :
  unique_codes (links_of w) ->
  In l (links_of w) ->
  ShortenedLink.user_id l = None ->
  (forall body,
     fst (app (owner_request op authorization (ShortenedLink.short_code l)) w)
     <> HTTP 200 body)
  /\ snd (app (owner_request op authorization (ShortenedLink.short_code l)) w)
     = w
  /\ (forall user,
        fst (get_current_user (security authorization) w) = inr user ->
        fst (app (owner_request op authorization
                                (ShortenedLink.short_code l)) w)
        = forbidden).
Proof.
  intros Hu Hin Hnone. rewrite app_owner_request.
  destruct (fst (get_current_user (security authorization) w))
    as [e|user] eqn:Hwho.
  - repeat split; try reflexivity.
    + intros body. destruct e as [status detail| | | | | |];
        try discriminate.
      destruct (get_current_user_401 _ _ _ _ Hwho) as [-> _]. discriminate.
    + intros user Huser. discriminate Huser.
  - unfold serve.
    rewrite (denied_when_not_owned op l user w Hu Hin)
      by (rewrite Hnone; discriminate).
    repeat split; try reflexivity. intros body. discriminate.
Qed.

Lemma ownerless_link_is_closed_witness :
  fst (app (auth := Demo.auth) (builtins := Demo.builtins)
           (owner_request Delete (Some "Bearer alice-token") "aaaaaa")
           (Demo.world [Demo.abc; Demo.aaaaaa]))
  = forbidden.
Proof.
  refine (proj2 (proj2 (ownerless_link_is_closed (auth := Demo.auth)
            (builtins := Demo.builtins) Delete (Some "Bearer alice-token")
            (Demo.world [Demo.abc; Demo.aaaaaa]) Demo.aaaaaa _ _ _))
            Demo.alice _).
  - repeat constructor; simpl; intuition discriminate.
  - simpl. auto.
  - reflexivity.
  - reflexivity.
Defined.

(** X5. The owner reads the statistics.  Under unique codes, when the
    header resolves to the user that owns the stored link, the stats
    request answers 200 with the link's [original_url], [created_at],
    [click_count] and [last_used_at] (null when never used) and leaves the
    world as it was. *)
Theorem owner_reads_stats {auth : Auth} {builtins : Builtins}
    authorization w l user :
  unique_codes (links_of w) ->
  In l (links_of w) ->
  fst (get_current_user (security authorization) w) = inr user ->
  ShortenedLink.user_id l = Some (User.id user) ->
  app (GetStats authorization (ShortenedLink.short_code l)) w
  = (HTTP 200 (stats_of l), w).
Proof.
  intros Hu Hin Hwho Howner.
  unfold app, serve. cbn [route].
  rewrite (as_current_user_resolved _ _ _ _ Hwho).
  unfold get_link_stats, links_by_code, bind, get_db, ret.
  fold (links_of w). rewrite (select_present l _ Hu Hin). simpl.
  rewrite Howner, owner_does_not_differ. reflexivity.
Qed.

Lemma owner_reads_stats_witness :
  app (auth := Demo.auth) (builtins := Demo.builtins)
      (GetStats (Some "Bearer bob-token") "old")
      (Demo.world [Demo.abc; Demo.old])
  = (HTTP 200 (stats_of Demo.old), Demo.world [Demo.abc; Demo.old]).
Proof.
  refine (owner_reads_stats (auth := Demo.auth) (builtins := Demo.builtins)
            (Some "Bearer bob-token") (Demo.world [Demo.abc; Demo.old])
            Demo.old Demo.bob _ _ _ _).
  - repeat constructor; simpl; intuition discriminate.
  - simpl. auto.
  - reflexivity.
  - reflexivity.
Defined.

(** X6. The owner deletes the link.  Under unique codes and keys, when the
    header resolves to the owner, the delete request answers 200 with the
    confirmation message; afterwards the link is gone, no stored link has
    its code, every other link is still stored, the users are untouched,
    and looking the code up answers 404. *)
Theorem owner_deletes_link {auth : Auth} {builtins : Builtins}
    authorization w l user :
  unique_codes (links_of w) ->
  unique_ids (links_of w) ->
  In l (links_of w) ->
  fst (get_current_user (security authorization) w) = inr user ->
  ShortenedLink.user_id l = Some (User.id user) ->
  fst (app (DeleteLink authorization (ShortenedLink.short_code l)) w)
    = HTTP 200 (JObj [("message",
         JStr ("Short URL '" ++ ShortenedLink.short_code l ++ "' deleted"))])
  /\ links_of (snd (app (DeleteLink authorization
                                    (ShortenedLink.short_code l)) w))
     = without (ShortenedLink.id l) (links_of w)
  /\ users (db (snd (app (DeleteLink authorization
                                     (ShortenedLink.short_code l)) w)))
     = users (db w)
  /\ ~ In (ShortenedLink.short_code l)
          (link_codes (without (ShortenedLink.id l) (links_of w)))
  /\ (forall r, In r (links_of w) -> r <> l ->
        In r (without (ShortenedLink.id l) (links_of w)))
  /\ fst (serve (get_original_url (ShortenedLink.short_code l))
                (snd (app (DeleteLink authorization
                                      (ShortenedLink.short_code l)) w)))
     = not_found.
Proof.
  intros Hu Hids Hin Hwho Howner.
  assert (Hrun : app (DeleteLink authorization (ShortenedLink.short_code l)) w
    = (HTTP 200 (JObj [("message",
         JStr ("Short URL '" ++ ShortenedLink.short_code l ++ "' deleted"))]),
       set_db (mkDB (users (db w))
                 (without (ShortenedLink.id l) (links_of w))) w)).
  { unfold app, serve. cbn [route].
    rewrite (as_current_user_resolved _ _ _ _ Hwho).
    unfold delete_short_link, links_by_code, bind, get_db, ret.
    fold (links_of w). rewrite (select_present l _ Hu Hin). simpl.
    rewrite Howner, owner_does_not_differ. reflexivity. }
  assert (Hgone : ~ In (ShortenedLink.short_code l)
                      (link_codes (without (ShortenedLink.id l) (links_of w)))).
  { unfold link_codes. intros Hc. apply in_map_iff in Hc.
    destruct Hc as [r [Hcode Hr]]. apply without_spec in Hr.
    destruct Hr as [Hr Hne]. apply Hne.
    now rewrite (same_code_same_row _ r l Hu Hr Hin Hcode). }
  rewrite Hrun. cbn [fst snd].
  split; [reflexivity|]. split; [reflexivity|]. split; [reflexivity|].
  split; [exact Hgone|]. split.
  - intros r Hr Hne. apply without_spec. split; [exact Hr|].
    intros Hid. apply Hne. exact (same_key_same_row _ r l Hids Hr Hin Hid).
  - unfold serve, get_original_url, links_by_code, bind, get_db, ret.
    cbn [db set_db shortened_links].
    now rewrite (select_absent _ _ Hgone).
Qed.

Lemma owner_deletes_link_witness :
  fst (serve (get_original_url "old")
         (snd (app (auth := Demo.auth) (builtins := Demo.builtins)
                   (DeleteLink (Some "Bearer bob-token") "old")
                   (Demo.world [Demo.abc; Demo.old]))))
  = not_found.
Proof.
  refine (proj2 (proj2 (proj2 (proj2 (proj2
    (owner_deletes_link (auth := Demo.auth) (builtins := Demo.builtins)
       (Some "Bearer bob-token") (Demo.world [Demo.abc; Demo.old])
       Demo.old Demo.bob _ _ _ _ _)))))).
  - repeat constructor; simpl; intuition discriminate.
  - repeat constructor; simpl; intuition discriminate.
  - simpl. auto.
  - reflexivity.
  - reflexivity.
Defined.

(** X7. The owner retargets the link.  Under unique codes and keys, when
    the header resolves to the owner, the update request answers 200 with
    the short URL (the base URL without trailing slashes, a slash, the
    code); afterwards looking the code up answers the new URL, the table
    still has unique codes, and every other link is stored unchanged. *)
Theorem owner_retargets_link {auth : Auth} {builtins : Builtins}
    authorization base_url url w l user :
  unique_codes (links_of w) ->
  unique_ids (links_of w) ->
  In l (links_of w) ->
  fst (get_current_user (security authorization) w) = inr user ->
  ShortenedLink.user_id l = Some (User.id user) ->
  fst (app (PutLink authorization (ShortenedLink.short_code l) base_url url) w)
    = HTTP 200 (JObj [("short_url",
         JStr (rstrip_slash base_url ++ "/" ++ ShortenedLink.short_code l))])
  /\ links_of (snd (app (PutLink authorization (ShortenedLink.short_code l)
                                 base_url url) w))
     = retarget (ShortenedLink.id l) url (links_of w)
  /\ unique_codes (retarget (ShortenedLink.id l) url (links_of w))
  /\ (forall r, In r (links_of w) -> r <> l ->
        In r (retarget (ShortenedLink.id l) url (links_of w)))
  /\ fst (serve (get_original_url (ShortenedLink.short_code l))
                (snd (app (PutLink authorization (ShortenedLink.short_code l)
                                   base_url url) w)))
     = HTTP 200 (JObj [("original_url", JStr url)]).
Proof.
  intros Hu Hids Hin Hwho Howner.
  assert (Hrun :
    app (PutLink authorization (ShortenedLink.short_code l) base_url url) w
    = (HTTP 200 (JObj [("short_url",
         JStr (rstrip_slash base_url ++ "/" ++ ShortenedLink.short_code l))]),
       set_db (mkDB (users (db w))
                 (retarget (ShortenedLink.id l) url (links_of w))) w)).
  { unfold app, serve. cbn [route].
    rewrite (as_current_user_resolved _ _ _ _ Hwho).
    unfold update_short_link, links_by_code, bind, get_db, ret.
    fold (links_of w). rewrite (select_present l _ Hu Hin). simpl.
    rewrite Howner, owner_does_not_differ. reflexivity. }
  assert (Hu' : unique_codes (retarget (ShortenedLink.id l) url (links_of w)))
    by (unfold unique_codes; now rewrite retarget_codes).
  rewrite Hrun. cbn [fst snd].
  split; [reflexivity|]. split; [reflexivity|]. split; [exact Hu'|]. split.
  - intros r Hr Hne. apply retarget_others; [exact Hr|].
    intros Hid. apply Hne. exact (same_key_same_row _ r l Hids Hr Hin Hid).
  - unfold serve, get_original_url, links_by_code, bind, get_db, ret.
    cbn [db set_db shortened_links].
    change (ShortenedLink.short_code l)
      with (ShortenedLink.short_code (ShortenedLink.with_original_url url l)).
    rewrite (select_present (ShortenedLink.with_original_url url l) _ Hu').
    + reflexivity.
    + now apply retarget_In.
Qed.

Lemma owner_retargets_link_witness :
  fst (serve (get_original_url "old")
         (snd (app (auth := Demo.auth) (builtins := Demo.builtins)
                   (PutLink (Some "Bearer bob-token") "old" "http://sho.rt/"
                            "https://newer.example")
                   (Demo.world [Demo.abc; Demo.old]))))
  = HTTP 200 (JObj [("original_url", JStr "https://newer.example")]).
Proof.
  refine (proj2 (proj2 (proj2 (proj2
    (owner_retargets_link (auth := Demo.auth) (builtins := Demo.builtins)
       (Some "Bearer bob-token") "http://sho.rt/" "https://newer.example"
       (Demo.world [Demo.abc; Demo.old]) Demo.old Demo.bob _ _ _ _ _))))).
  - repeat constructor; simpl; intuition discriminate.
  - repeat constructor; simpl; intuition discriminate.
  - simpl. auto.
  - reflexivity.
  - reflexivity.
Defined.




Section Callers.

Context {auth : Auth} {builtins : Builtins}.

(** What both resolvers do with a token once they have one. *)
Lemma token_resolution c w user :
  fst (get_current_user (Some c) w) = inr user
  <-> fst (match decode_access_token (credentials c) with
           | None | Some [] => ret None
           | Some payload =>
               user_id <- int_sub payload ;; user_by_id user_id
           end w) = inr (Some user).
Proof.
  unfold get_current_user, bind. cbn [ret].
  destruct (decode_access_token (credentials c)) as [[|kv payload]|].
  - simpl. split; discriminate.
  - destruct (int_sub (kv :: payload) w) as [[e|n] w1].
    + simpl. split; discriminate.
    + destruct (user_by_id n w1) as [[e|[u|]] w2]; simpl;
        split; intros E; try discriminate E; now injection E as ->.
  - simpl. split; discriminate.
Qed.

Lemma user_by_id_sound user_id w user :
  fst (user_by_id user_id w) = inr (Some user) ->
  In user (users (db w)) /\ User.id user = user_id.
Proof.
  unfold user_by_id, bind, get_db, scalar_one_or_none, select_where.
  destruct (filter _ (users (db w))) as [|u [|u' rest]] eqn:F;
    simpl; intros E; try discriminate E.
  injection E as ->.
  assert (Hin : In user (filter (fun u => User.id u =? user_id)
                           (users (db w)))) by (rewrite F; now left).
  apply filter_In in Hin. rewrite Z.eqb_eq in Hin. exact Hin.
Qed.

End Callers.

(** X9. Who is resolved.  When [get_current_user] returns a user, the
    credentials were there, their token decoded to a payload whose ["sub"]
    claim reads as that user's key, and the user is a row of the [users]
    table: no user is made up and none is returned for a key that is not
    the token's. *)
Theorem resolved_user_is_the_subject {auth : Auth} {builtins : Builtins}
    creds w user :
  fst (get_current_user creds w) = inr user ->
  In user (users (db w))
  /\ exists c payload sub,
       creds = Some c
       /\ decode_access_token (credentials c) = Some payload
       /\ dict_get "sub" payload = Some sub
       /\ int_of_str sub = Some (User.id user).
Proof.
  destruct creds as [c|]; [|discriminate].
  intros H. apply token_resolution in H.
  destruct (decode_access_token (credentials c)) as [[|kv payload]|] eqn:D;
    try discriminate H.
  unfold bind in H.
  pose proof (int_sub_world (kv :: payload) w) as Hw.
  destruct (int_sub (kv :: payload) w) as [[e|n] w1] eqn:I; simpl in Hw;
    subst w1; [discriminate H|].
  apply user_by_id_sound in H. destruct H as [Hin Hid].
  split; [exact Hin|].
  unfold int_sub in I.
  destruct (dict_get "sub" (kv :: payload)) as [sub|] eqn:G;
    [|discriminate I].
  destruct (int_of_str sub) as [m|] eqn:P; [|discriminate I].
  injection I as ->.
  exists c, (kv :: payload), sub. rewrite Hid. auto.
Qed.

Lemma resolved_user_is_the_subject_witness :
  In Demo.bob (users (db (Demo.world []))).
Proof.
  exact (proj1 (resolved_user_is_the_subject (auth := Demo.auth)
                  (builtins := Demo.builtins)
                  (security (Some "bearer bob-token")) (Demo.world [])
                  Demo.bob eq_refl)).
Defined.




(** ** Accounts *)

Lemma select_email_absent username rows :
  ~ In username (map User.email rows) ->
  select_where (fun u => String.eqb (User.email u) username) rows = []
  /\ existsb (fun u => String.eqb (User.email u) username) rows = false.
Proof.
  unfold select_where.
  induction rows as [|r rows IH]; simpl; intros Hnot; [auto|].
  destruct (String.eqb_spec (User.email r) username) as [E|E].
  - tauto.
  - apply IH. tauto.
Qed.

Lemma select_email_present u rows :
  NoDup (map User.email rows) -> In u rows ->
  select_where (fun r => String.eqb (User.email r) (User.email u)) rows = [u].
Proof.
  unfold select_where.
  induction rows as [|r rows IH]; simpl; intros Hnd Hin; [contradiction|].
  inversion Hnd as [|e es Hnot Hrest]; subst.
  destruct Hin as [->|Hin].
  - rewrite String.eqb_refl. f_equal.
    now apply (select_email_absent (User.email u) rows).
  - destruct (String.eqb_spec (User.email r) (User.email u)) as [E|E].
    + exfalso. apply Hnot. rewrite E. now apply in_map.
    + now apply IH.
Qed.

Lemma existsb_email_present username rows :
  In username (map User.email rows) ->
  existsb (fun u => String.eqb (User.email u) username) rows = true.
Proof.
  intros Hin. apply in_map_iff in Hin. destruct Hin as [u [E Hin]].
  apply existsb_exists. exists u. split; [exact Hin|].
  now apply String.eqb_eq.
Qed.

(** X11. Registration followed by login.  When the username is not yet
    registered, registering it answers 200, appends one user with a fresh
    key and the hashed password and leaves the links alone; if the hasher
    verifies what it hashed, logging in with the same username and
    password then answers 200 with a bearer token minted for that key. *)
Theorem register_then_login {auth : Auth} {builtins : Builtins}
    username password w :
  ~ In username (map User.email (users (db w))) ->
  verify_password password (hash_password password) = true ->
  fst (app (PostRegister username password) w)
    = HTTP 200 (JObj [("message", JStr "User registered successfully")])
  /\ users (db (snd (app (PostRegister username password) w)))
     = (users (db w) ++ [new_user username password w])%list
  /\ ~ In (User.id (new_user username password w))
          (map User.id (users (db w)))
  /\ links_of (snd (app (PostRegister username password) w)) = links_of w
  /\ app (PostLogin username password)
         (snd (app (PostRegister username password) w))
     = (HTTP 200 (JObj
          [("access_token",
            JStr (create_access_token
                    [("sub", str_of_int
                               (User.id (new_user username password w)))]));
           ("token_type", JStr "bearer")]),
        snd (app (PostRegister username password) w)).
Proof.
  intros Hfree Hverify.
  destruct (select_email_absent username _ Hfree) as [Hsel Hex].
  assert (Hrun : app (PostRegister username password) w
    = (HTTP 200 (JObj [("message", JStr "User registered successfully")]),
       set_db (mkDB (users (db w) ++ [new_user username password w])
                    (shortened_links (db w))) w)).
  { unfold app, serve. cbn [route]. unfold register, bind, get_db.
    rewrite Hex. reflexivity. }
  rewrite Hrun. cbn [fst snd].
  split; [reflexivity|]. split; [reflexivity|].
  split; [apply next_id_fresh|]. split; [reflexivity|].
  unfold app, serve. cbn [route]. unfold login, bind, get_db.
  cbn [db set_db users].
  unfold select_where in *. rewrite filter_app, Hsel. simpl.
  rewrite String.eqb_refl. simpl. rewrite Hverify. reflexivity.
Qed.

Lemma register_then_login_witness :
  fst (app (auth := Demo.auth) (builtins := Demo.builtins)
           (PostLogin "carol" "secret")
           (snd (app (auth := Demo.auth) (builtins := Demo.builtins)
                     (PostRegister "carol" "secret")
                     (Demo.world []))))
  = HTTP 200 (JObj [("access_token", JStr "token");
                    ("token_type", JStr "bearer")]).
Proof.
  pose proof (register_then_login (auth := Demo.auth)
                (builtins := Demo.builtins) "carol" "secret" (Demo.world [])
                ltac:(simpl; intuition discriminate) eq_refl)
    as (_ & _ & _ & _ & H).
  rewrite H. reflexivity.
Defined.

(** X12. A failed login does not say why.  With unique usernames, a login
    for a username that is not registered and a login with a password
    that does not verify against the stored hash get the same 401
    "Invalid credentials", and neither changes the world. *)
Theorem login_failures_are_alike {auth : Auth} {builtins : Builtins}
    password w :
  NoDup (map User.email (users (db w))) ->
  (forall username,
     ~ In username (map User.email (users (db w))) ->
     app (PostLogin username password) w = (invalid_credentials, w))
  /\ (forall u,
        In u (users (db w)) ->
        verify_password password (User.hashed_password u) = false ->
        app (PostLogin (User.email u) password) w
        = (invalid_credentials, w)).
Proof.
  intros Hnd. split.
  - intros username Hfree.
    destruct (select_email_absent username _ Hfree) as [Hsel _].
    unfold app, serve. cbn [route]. unfold login, bind, get_db.
    now rewrite Hsel.
  - intros u Hin Hbad.
    unfold app, serve. cbn [route]. unfold login, bind, get_db.
    rewrite (select_email_present u _ Hnd Hin). simpl.
    now rewrite Hbad.
Qed.

Lemma login_failures_are_alike_witness :
  app (auth := Demo.auth) (builtins := Demo.builtins)
      (PostLogin "alice" "wrong") (Demo.world [])
  = (invalid_credentials, Demo.world [])
  /\ app (auth := Demo.auth) (builtins := Demo.builtins)
         (PostLogin "nobody" "wrong") (Demo.world [])
     = (invalid_credentials, Demo.world []).
Proof.
  destruct (login_failures_are_alike (auth := Demo.auth)
              (builtins := Demo.builtins) "wrong" (Demo.world [])
              ltac:(repeat constructor; simpl; intuition discriminate))
    as [Hunknown Hbad].
  split.
  - exact (Hbad Demo.alice ltac:(simpl; auto) eq_refl).
  - exact (Hunknown "nobody" ltac:(simpl; intuition discriminate)).
Defined.

(** X13. A username is registered once.  Registering a username that is
    already in the [users] table violates the UNIQUE constraint on [email];
    the handler does not catch it, so the request answers 500 and the
    world, with the first registration, is unchanged. *)
Theorem register_twice_fails {auth : Auth} {builtins : Builtins}
    username password w :
  In username (map User.email (users (db w))) ->
  app (PostRegister username password) w = (InternalServerError, w).
Proof.
  intros Hin. unfold app, serve. cbn [route]. unfold register, bind, get_db.
  now rewrite (existsb_email_present _ _ Hin).
Qed.

Lemma register_twice_fails_witness :
  app (auth := Demo.auth) (builtins := Demo.builtins)
      (PostRegister "alice" "again") (Demo.world [])
  = (InternalServerError, Demo.world []).
Proof.
  exact (register_twice_fails (auth := Demo.auth) (builtins := Demo.builtins)
           "alice" "again" (Demo.world []) ltac:(simpl; auto)).
Defined.

(** ** More invariants of the running system *)

Lemma usage_sane_append rows row :
  ShortenedLink.click_count row = 0 ->
  ShortenedLink.last_used_at row = None ->
  Forall usage_sane rows -> Forall usage_sane (rows ++ [row]).
Proof.
  intros Hc Hn Hall. apply Forall_app. split; [exact Hall|].
  constructor; [|constructor]. unfold usage_sane. rewrite Hc, Hn.
  split; [lia | tauto].
Qed.

Lemma usage_sane_retarget key url rows :
  Forall usage_sane rows -> Forall usage_sane (retarget key url rows).
Proof.
  unfold retarget. intros Hall. apply Forall_map.
  apply (Forall_impl _ (P := usage_sane)); [|exact Hall].
  intros r Hr. now destruct (ShortenedLink.id r =? key).
Qed.

Lemma usage_sane_visit key clicks now rows :
  0 < clicks ->
  Forall usage_sane rows -> Forall usage_sane (visit key clicks now rows).
Proof.
  unfold visit. intros Hpos Hall. apply Forall_map.
  apply (Forall_impl _ (P := usage_sane)); [|exact Hall].
  intros r Hr. destruct (ShortenedLink.id r =? key); [|exact Hr].
  unfold usage_sane. simpl. split; [lia|].
  split; [lia | discriminate].
Qed.

Lemma usage_sane_filter keep rows :
  Forall usage_sane rows -> Forall usage_sane (filter keep rows).
Proof.
  intros Hall. apply Forall_forall. intros r Hr.
  apply filter_In in Hr. rewrite Forall_forall in Hall. now apply Hall.
Qed.

Lemma unique_users_append rows u :
  ~ In (User.email u) (map User.email rows) ->
  User.id u = next_id (map User.id rows) ->
  unique_users rows -> unique_users (rows ++ [u]).
Proof.
  unfold unique_users. intros Hmail Hid [He Hi].
  rewrite !map_app. simpl. split.
  - apply NoDup_app; [exact He | repeat constructor; simpl; tauto|].
    intros e Hin [<-|[]]. exact (Hmail Hin).
  - apply NoDup_app; [exact Hi | repeat constructor; simpl; tauto|].
    intros i Hin [<-|[]]. rewrite Hid in Hin. exact (next_id_fresh _ Hin).
Qed.

Section MoreInvariants.

Context {auth : Auth} {builtins : Builtins}.

(** Only a registration touches the [users] table. *)
Lemma route_users r w :
  users (db (snd (route r w))) = users (db w)
  \/ exists username password,
       r = PostRegister username password
       /\ ~ In username (map User.email (users (db w)))
       /\ users (db (snd (route r w)))
          = (users (db w) ++ [new_user username password w])%list.
Proof.
  destruct r as [u p|u p|a b d|c|c|a c|a|a c|a c b url].
  - cbn [route]. unfold register, bind, get_db.
    destruct (existsb _ (users (db w))) eqn:E; [now left|].
    right. exists u, p. split; [reflexivity|]. split; [|reflexivity].
    intros Hin. apply existsb_email_present in Hin. congruence.
  - left. cbn [route]. now rewrite login_effect.
  - left. destruct (shorten_effect a b d w) as [user [->| ->]];
      [|reflexivity].
    rewrite shorten_link_run.
    now destruct (existsb _ (shortened_links (db w))).
  - left. cbn [route].
    destruct (select_where (short_code_is c) (links_of w))
      as [|l [|l' rest]] eqn:Hsel.
    + rewrite redirect_other_run; [reflexivity|]. rewrite Hsel. discriminate.
    + rewrite (redirect_found_run c l w Hsel).
      now destruct (live_at l (clock w (clock_reads w))).
    + rewrite redirect_other_run; [reflexivity|]. rewrite Hsel. discriminate.
  - left. cbn [route]. now rewrite get_original_url_effect.
  - left. cbn [route].
    destruct (as_current_user_effect a (get_link_stats c) w)
      as [[-> _]|[user ->]]; [|rewrite get_link_stats_effect]; reflexivity.
  - left. cbn [route].
    destruct (as_current_user_effect a get_my_links w)
      as [[-> _]|[user ->]]; reflexivity.
  - left. cbn [route].
    destruct (as_current_user_effect a (delete_short_link c) w)
      as [[-> _]|[user ->]]; [reflexivity|].
    destruct (delete_short_link_effect c user w) as [-> | [l ->]];
      reflexivity.
  - left. cbn [route].
    destruct (as_current_user_effect a (update_short_link c b url) w)
      as [[-> _]|[user ->]]; [reflexivity|].
    destruct (update_short_link_effect c b url user w)
      as [[-> _] | [l [_ [_ ->]]]]; reflexivity.
Qed.

Lemma route_usage_sane r w :
  Forall usage_sane (links_of w) ->
  Forall usage_sane (links_of (snd (route r w))).
Proof.
  intros Hall.
  destruct r as [u p|u p|a b d|c|c|a c|a|a c|a c b url].
  - destruct (register_effect u p w) as (Hl & _). cbn [route]. now rewrite Hl.
  - cbn [route]. now rewrite login_effect.
  - destruct (shorten_effect a b d w) as [user [->| ->]]; [|exact Hall].
    destruct (shorten_link_links d b user w) as [-> | [-> _]];
      [exact Hall|]. now apply usage_sane_append.
  - cbn [route].
    destruct (select_where (short_code_is c) (links_of w))
      as [|l [|l' rest]] eqn:Hsel.
    + rewrite redirect_other_run; [exact Hall|]. rewrite Hsel. discriminate.
    + rewrite (redirect_found_run c l w Hsel).
      destruct (live_at l (clock w (clock_reads w))); [|exact Hall].
      unfold visited, links_of. cbn [snd db shortened_links].
      apply usage_sane_visit; [|exact Hall].
      assert (Hin : In l (links_of w)).
      { apply (select_code (links_of w) c l). rewrite Hsel. now left. }
      rewrite Forall_forall in Hall. destruct (Hall l Hin) as [Hpos _]. lia.
    + rewrite redirect_other_run; [exact Hall|]. rewrite Hsel. discriminate.
  - cbn [route]. now rewrite get_original_url_effect.
  - cbn [route]. destruct (as_current_user_effect a (get_link_stats c) w)
      as [[-> _]|[user ->]]; [|rewrite get_link_stats_effect]; exact Hall.
  - cbn [route]. destruct (as_current_user_effect a get_my_links w)
      as [[-> _]|[user ->]]; exact Hall.
  - cbn [route]. destruct (as_current_user_effect a (delete_short_link c) w)
      as [[-> _]|[user ->]]; [exact Hall|].
    destruct (delete_short_link_effect c user w) as [-> | [l ->]];
      [exact Hall|].
    unfold links_of, without. cbn [db set_db shortened_links].
    now apply usage_sane_filter.
  - cbn [route].
    destruct (as_current_user_effect a (update_short_link c b url) w)
      as [[-> _]|[user ->]]; [exact Hall|].
    destruct (update_short_link_effect c b url user w)
      as [[-> _] | [l [_ [_ ->]]]]; [exact Hall|].
    unfold links_of. cbn [db set_db shortened_links].
    now apply usage_sane_retarget.
Qed.

Lemma step_users_and_usage e w :
  unique_users (users (db w)) /\ Forall usage_sane (links_of w) ->
  unique_users (users (db (step e w)))
  /\ Forall usage_sane (links_of (step e w)).
Proof.
  intros [Hu Hs]. destruct e as [r|]; cbn [step].
  - rewrite snd_app. split; [|now apply route_usage_sane].
    destruct (route_users r w) as [-> | (u & p & _ & Hfree & ->)];
      [exact Hu|].
    now apply unique_users_append.
  - split; [exact Hu | exact Hs].
Qed.

End MoreInvariants.

(** X14. What the running system keeps true.  In every world reachable
    from startup the links have unique codes and unique keys, the users
    have unique usernames and unique keys, and every link's counter is
    sane: [click_count] is never negative, and it is 0 exactly when the
    link has never been used ([last_used_at] is null). *)
Theorem reachable_world_is_sound {auth : Auth} {builtins : Builtins} w :
  reachable w ->
  unique_codes (links_of w)
  /\ unique_ids (links_of w)
  /\ unique_users (users (db w))
  /\ Forall usage_sane (links_of w).
Proof.
  intros Hreach.
  destruct (reachable_invariant w Hreach) as (_ & Hids & Hcodes & _).
  split; [exact Hcodes|]. split; [exact Hids|].
  induction Hreach as [clock entropy Hmono | w e Hreach IH].
  - split; [split; constructor | constructor].
  - apply step_users_and_usage. apply IH.
    + now destruct (reachable_invariant w Hreach) as (_ & H & _ & _).
    + now destruct (reachable_invariant w Hreach) as (_ & _ & H & _).
Qed.

Lemma reachable_world_is_sound_witness :
  unique_codes
    (links_of
       (step (auth := Demo.auth) (builtins := Demo.builtins)
          (Incoming (PostShorten None "http://sho.rt/"
             (mkShorten "https://example.com" None None)))
          (startup Demo.ticking (fun _ => O)))).
Proof.
  apply (reachable_world_is_sound (auth := Demo.auth)
           (builtins := Demo.builtins)).
  apply reach_step. apply reach_startup.
  intros i j Hij. unfold Demo.ticking. lia.
Defined.



(** ** Requests in sequence *)




(** X17. A visit shows in the owner's statistics.  Under unique codes,
    after a stored link that has not expired is resolved, by anybody, a
    stats request of its owner answers 200 with [click_count] one higher
    than before and [last_used_at] the reading of the clock taken for the
    visit; the URL and the creation time are as before. *)
Theorem visit_shows_in_stats {auth : Auth} {builtins : Builtins}
    authorization w l user :
  unique_codes (links_of w) ->
  In l (links_of w) ->
  live_at l (clock w (clock_reads w)) = true ->
  fst (get_current_user (security authorization) w) = inr user ->
  ShortenedLink.user_id l = Some (User.id user) ->
  app (GetStats authorization (ShortenedLink.short_code l))
      (snd (app (GetRedirect (ShortenedLink.short_code l)) w))
  = (HTTP 200 (JObj
       [("original_url", JStr (ShortenedLink.original_url l));
        ("created_at", JDateTime (ShortenedLink.created_at l));
        ("click_count", JInt (ShortenedLink.click_count l + 1));
        ("last_used_at", JDateTime (clock w (visit_read l w)))]),
     snd (app (GetRedirect (ShortenedLink.short_code l)) w)).
Proof.
  intros Hu Hin Hlive Hwho Howner.
  rewrite snd_app. cbn [route].
  rewrite (redirect_found_run _ l w (select_present l _ Hu Hin)), Hlive.
  cbn [snd].
  assert (Hwho' : fst (get_current_user (security authorization) (visited l w))
                  = inr user).
  { rewrite <- Hwho. now apply get_current_user_users. }
  unfold app, serve. cbn [route].
  rewrite (as_current_user_resolved _ _ _ _ Hwho').
  unfold get_link_stats, links_by_code, bind, get_db, ret.
  unfold visited at 1. cbn [db shortened_links].
  set (l' := ShortenedLink.with_visit (ShortenedLink.click_count l + 1)
               (clock w (visit_read l w)) l).
  change (ShortenedLink.short_code l) with (ShortenedLink.short_code l').
  rewrite (select_present l').
  - simpl. rewrite Howner, owner_does_not_differ. reflexivity.
  - unfold unique_codes. now rewrite visit_codes.
  - now apply visit_In.
Qed.

Lemma visit_shows_in_stats_witness :
  fst (app (auth := Demo.auth) (builtins := Demo.builtins)
           (GetStats (Some "Bearer alice-token") "abc")
           (snd (app (auth := Demo.auth) (builtins := Demo.builtins)
                     (GetRedirect "abc") (Demo.world [Demo.abc; Demo.old]))))
  = HTTP 200 (JObj
      [("original_url", JStr "https://example.com");
       ("created_at", JDateTime (99 * Demo.day));
       ("click_count", JInt 1);
       ("last_used_at", JDateTime 8640000000000)]).
Proof.
  exact (f_equal fst
    (visit_shows_in_stats (auth := Demo.auth) (builtins := Demo.builtins)
       (Some "Bearer alice-token") (Demo.world [Demo.abc; Demo.old])
       Demo.abc Demo.alice
       ltac:(repeat constructor; simpl; intuition discriminate)
       ltac:(simpl; auto) eq_refl eq_refl eq_refl)).
Defined.

(** X18. Visits add up.  Under unique codes, resolving the code of a stored
    link that has no expiry [n] times in a row leaves exactly one link
    under that code, with the same [original_url] and a [click_count]
    that is [n] higher; each resolution has read the clock once. *)
Theorem visits_add_up n w l :
  unique_codes (links_of w) ->
  In l (links_of w) ->
  ShortenedLink.expires_at l = None ->
  exists l',
    select_where (short_code_is (ShortenedLink.short_code l))
      (links_of (resolved_times n (ShortenedLink.short_code l) w)) = [l']
    /\ ShortenedLink.click_count l'
       = ShortenedLink.click_count l + Z.of_nat n
    /\ ShortenedLink.original_url l' = ShortenedLink.original_url l
    /\ clock_reads (resolved_times n (ShortenedLink.short_code l) w)
       = (clock_reads w + n)%nat.
Proof.
  revert w l. induction n as [|n IH]; intros w l Hu Hin Hexp.
  - exists l. cbn [resolved_times].
    split; [now apply select_present|].
    split; [simpl; lia|]. split; [reflexivity | lia].
  - cbn [resolved_times].
    rewrite (redirect_found_run _ l w (select_present l _ Hu Hin)).
    assert (Hlive : live_at l (clock w (clock_reads w)) = true)
      by (unfold live_at; now rewrite Hexp).
    rewrite Hlive. cbn [snd].
    set (l1 := ShortenedLink.with_visit (ShortenedLink.click_count l + 1)
                 (clock w (visit_read l w)) l).
    assert (Hu1 : unique_codes (links_of (visited l w)))
      by (unfold visited, links_of, unique_codes; simpl;
          now rewrite visit_codes).
    assert (Hin1 : In l1 (links_of (visited l w)))
      by (unfold visited, links_of; simpl; now apply visit_In).
    pose proof (IH (visited l w) l1 Hu1 Hin1 Hexp) as Hn.
    change (ShortenedLink.short_code l1)
      with (ShortenedLink.short_code l) in Hn.
    destruct Hn as (l' & Hsel & Hclicks & Hurl & Hreads).
    exists l'. split; [exact Hsel|].
    split; [rewrite Hclicks; simpl; lia|].
    split; [rewrite Hurl; reflexivity|].
    rewrite Hreads. unfold visited, visit_read. rewrite Hexp. simpl. lia.
Qed.

Lemma visits_add_up_witness :
  exists l',
    select_where (short_code_is "abc")
      (links_of (resolved_times 3 "abc" (Demo.world [Demo.abc; Demo.old])))
    = [l']
    /\ ShortenedLink.click_count l' = 0 + 3.
Proof.
  destruct (visits_add_up 3 (Demo.world [Demo.abc; Demo.old]) Demo.abc
              ltac:(repeat constructor; simpl; intuition discriminate)
              ltac:(simpl; auto) eq_refl)
    as (l' & Hsel & Hclicks & _).
  exists l'. split; [exact Hsel | exact Hclicks].
Defined.

(** ** The short URL that is reported *)

Lemma append_assoc (a b c : string) : (a ++ b) ++ c = a ++ (b ++ c).
Proof. induction a as [|x a IH]; simpl; congruence. Qed.

Lemma rstrip_slash_of_slashed b :
  ends_with_slash b = false -> rstrip_slash (b ++ "/") = b.
Proof.
  induction b as [|c b IH]; intros Hb; [reflexivity|].
  destruct b as [|c' b'].
  - simpl in Hb. simpl. now rewrite Hb.
  - change (ends_with_slash (String c (String c' b')))
      with (ends_with_slash (String c' b')) in Hb.
    change (rstrip_slash (String c (String c' b') ++ "/"))
      with (match rstrip_slash (String c' b' ++ "/") with
            | EmptyString => if Ascii.eqb c "/" then "" else String c ""
            | r => String c r
            end).
    now rewrite (IH Hb).
Qed.

Lemma rstrip_slash_no_slash s : ends_with_slash (rstrip_slash s) = false.
Proof.
  induction s as [|c s IH]; [reflexivity|].
  simpl. destruct (rstrip_slash s) as [|c' r] eqn:E.
  - destruct (Ascii.eqb c "/") eqn:Ec; [reflexivity|]. simpl. exact Ec.
  - exact IH.
Qed.

(** X19. Update reports the short URL that creation reported.  The base
    URL of a request ends in one slash.  For such a base URL, under
    unique codes, a successful update by the owner answers the base URL
    followed by the code, which is the [short_url] that creating the link
    under that base URL answered; for any base URL at all, what precedes
    the slash and the code in the answer does not end in a slash. *)
Theorem update_reports_creation_url {auth : Auth} {builtins : Builtins}
    authorization base url w l user :
  unique_codes (links_of w) ->
  In l (links_of w) ->
  fst (get_current_user (security authorization) w) = inr user ->
  ShortenedLink.user_id l = Some (User.id user) ->
  ends_with_slash base = false ->
  fst (app (PutLink authorization (ShortenedLink.short_code l)
                    (base ++ "/") url) w)
    = HTTP 200 (JObj [("short_url",
                       JStr ((base ++ "/") ++ ShortenedLink.short_code l))])
  /\ created (base ++ "/") (ShortenedLink.short_code l) (Some user)
     = Body (JObj [("short_url",
                    JStr ((base ++ "/") ++ ShortenedLink.short_code l));
                   ("created_by", JStr (User.email user))])
  /\ (forall base_url,
        fst (app (PutLink authorization (ShortenedLink.short_code l)
                          base_url url) w)
          = HTTP 200 (JObj [("short_url",
               JStr (rstrip_slash base_url ++ "/"
                     ++ ShortenedLink.short_code l))])
        /\ ends_with_slash (rstrip_slash base_url) = false).
Proof.
  intros Hu Hin Hwho Howner Hbase.
  assert (Hrun : forall base_url,
    fst (app (PutLink authorization (ShortenedLink.short_code l)
                      base_url url) w)
    = HTTP 200 (JObj [("short_url",
         JStr (rstrip_slash base_url ++ "/"
               ++ ShortenedLink.short_code l))])).
  { intros base_url. unfold app, serve. cbn [route].
    rewrite (as_current_user_resolved _ _ _ _ Hwho).
    unfold update_short_link, links_by_code, bind, get_db, ret.
    fold (links_of w). rewrite (select_present l _ Hu Hin). simpl.
    rewrite Howner, owner_does_not_differ. reflexivity. }
  split; [|split; [reflexivity|]].
  - rewrite Hrun, (rstrip_slash_of_slashed base Hbase).
    now rewrite append_assoc.
  - intros base_url. split; [apply Hrun | apply rstrip_slash_no_slash].
Qed.

Lemma update_reports_creation_url_witness :
  fst (app (auth := Demo.auth) (builtins := Demo.builtins)
           (PutLink (Some "Bearer bob-token") "old" ("http://sho.rt" ++ "/")
                    "https://newer.example")
           (Demo.world [Demo.abc; Demo.old]))
  = HTTP 200 (JObj [("short_url", JStr (("http://sho.rt" ++ "/") ++ "old"))]).
Proof.
  exact (proj1 (update_reports_creation_url (auth := Demo.auth)
           (builtins := Demo.builtins) (Some "Bearer bob-token")
           "http://sho.rt" "https://newer.example"
           (Demo.world [Demo.abc; Demo.old]) Demo.old Demo.bob
           ltac:(repeat constructor; simpl; intuition discriminate)
           ltac:(simpl; auto) eq_refl eq_refl eq_refl)).
Defined.

(** ** The reach of the generator *)

Lemma index_in_spec c s :
  In c (chars_of s) ->
  (index_in c s < String.length s)%nat /\ char_at s (index_in c s) = c.
Proof.
  unfold char_at.
  induction s as [|x s IH]; simpl; intros Hin; [contradiction|].
  destruct (Ascii.eqb_spec x c) as [->|Hne].
  - split; [lia | reflexivity].
  - destruct Hin as [E|Hin]; [contradiction|].
    destruct (IH Hin) as [Hlt Hget]. split; [lia | exact Hget].
Qed.

Lemma drawn_entropy_for population cs start base :
  Forall (fun c => In c (chars_of population)) cs ->
  drawn population (entropy_for population cs base) (base + start)
        (List.length cs - start)
  = skipn start cs.
Proof.
  intros Hall.
  remember (List.length cs - start)%nat as k eqn:Hk.
  revert start Hk. induction k as [|k IH]; intros start Hk.
  - simpl. rewrite skipn_all2; [reflexivity | lia].
  - cbn [drawn].
    assert (Hlt : (start < List.length cs)%nat) by lia.
    pose proof (nth_In cs " "%char Hlt) as Hin.
    rewrite Forall_forall in Hall.
    destruct (index_in_spec _ population (Hall _ Hin)) as [Hidx Hget].
    unfold entropy_for at 1.
    replace (base + start - base)%nat with start by lia.
    rewrite Nat.mod_small by exact Hidx. rewrite Hget.
    replace (S (base + start)) with (base + S start)%nat by lia.
    rewrite (IH (S start)) by lia.
    clear - Hlt. revert start Hlt.
    induction cs as [|c cs IH]; intros start Hlt; simpl in *; [lia|].
    destruct start as [|start]; [reflexivity|].
    simpl. apply IH. lia.
Qed.

Lemma length_chars_of s : List.length (chars_of s) = String.length s.
Proof. induction s; simpl; congruence. Qed.

Lemma join_chars_chars_of s : join_chars (chars_of s) = s.
Proof. induction s; simpl; congruence. Qed.

Lemma in_alphabet c :
  existsb (Ascii.eqb c) (chars_of alphabet) = true ->
  In c (chars_of alphabet).
Proof.
  intros H. apply existsb_exists in H. destruct H as [x [Hin E]].
  apply Ascii.eqb_eq in E. now subst.
Qed.

(** X20. The generator reaches every code.  For every string over the
    62-character alphabet there are draws of the random source under which
    [generate_short_code], asked for that length, returns exactly that
    string; so a creation without alias can get any six-character
    alphanumeric code, and no code of the code space is excluded. *)
Theorem every_code_can_be_drawn code w :
  Forall (fun c => In c (chars_of alphabet)) (chars_of code) ->
  fst (generate_short_code (String.length code)
         (with_entropy
            (entropy_for alphabet (chars_of code) (entropy_draws w)) w))
    = inr code
  /\ (forall data,
        String.length code = 6%nat ->
        truthy_str (custom_alias data) = None ->
        chosen_code data
          (with_entropy
             (entropy_for alphabet (chars_of code) (entropy_draws w)) w)
        = code).
Proof.
  intros Hall.
  pose proof (drawn_entropy_for alphabet (chars_of code) 0 (entropy_draws w)
                Hall) as Hd.
  rewrite Nat.add_0_r, Nat.sub_0_r, length_chars_of in Hd. simpl in Hd.
  split.
  - rewrite generate_short_code_run. cbn [fst with_entropy entropy
      entropy_draws].
    now rewrite Hd, join_chars_chars_of.
  - intros data Hlen Hnone. unfold chosen_code. rewrite Hnone.
    cbn [with_entropy entropy entropy_draws].
    rewrite <- Hlen. now rewrite Hd, join_chars_chars_of.
Qed.

Lemma every_code_can_be_drawn_witness :
  fst (generate_short_code 6
         (with_entropy (entropy_for alphabet (chars_of "Zz9abc") 0)
                       (Demo.world [])))
  = inr "Zz9abc".
Proof.
  refine (proj1 (every_code_can_be_drawn "Zz9abc" (Demo.world []) _)).
  repeat (apply Forall_cons; [apply in_alphabet; reflexivity|]).
  apply Forall_nil.
Defined.

(** X21. A link created without a resolved caller belongs to nobody, for
    good.  When the optional resolver finds no user (no header, not a
    bearer header, a token that does not decode or names nobody), the
    table has unique codes and the code is free, the creation answers 200
    with creator "anonymous" and stores the link without owner; in the
    world after it no stats, update or delete on that code, with any
    header, answers 200 or changes anything. *)
Theorem anonymous_link_stays_closed {auth : Auth} {builtins : Builtins}
    authorization base_url data w :
  unique_codes (links_of w) ->
  ~ In (chosen_code data w) (link_codes (links_of w)) ->
  fst (get_current_user_optional authorization w) = inr None ->
  fst (app (PostShorten authorization base_url data) w)
    = HTTP 200 (JObj [("short_url", JStr (base_url ++ chosen_code data w));
                      ("created_by", JStr "anonymous")])
  /\ links_of (snd (app (PostShorten authorization base_url data) w))
     = (links_of w ++ [new_link data None w])%list
  /\ ShortenedLink.user_id (new_link data None w) = None
  /\ (forall op header,
        (forall body,
           fst (app (owner_request op header (chosen_code data w))
                    (snd (app (PostShorten authorization base_url data) w)))
           <> HTTP 200 body)
        /\ snd (app (owner_request op header (chosen_code data w))
                    (snd (app (PostShorten authorization base_url data) w)))
           = snd (app (PostShorten authorization base_url data) w)).
Proof.
  intros Hu Hfree Hanon.
  assert (E : existsb (short_code_is (chosen_code data w))
                (shortened_links (db w)) = false).
  { destruct (existsb _ (shortened_links (db w))) eqn:E; [|reflexivity].
    apply existsb_short_code in E. now destruct Hfree. }
  assert (Hopt : get_current_user_optional authorization w = (inr None, w)).
  { pose proof (get_current_user_optional_effect authorization w) as Hw.
    destruct (get_current_user_optional authorization w) as [r w'].
    simpl in Hw, Hanon. now subst. }
  assert (Hrun : app (PostShorten authorization base_url data) w
    = (respond (inr (created base_url (chosen_code data w) None)),
       with_new_link (new_link data None w) (code_draws data) w)).
  { unfold app, serve. cbn [route]. unfold bind at 1. rewrite Hopt.
    rewrite shorten_link_run, E. reflexivity. }
  rewrite Hrun. cbn [fst snd].
  split; [reflexivity|]. split; [reflexivity|]. split; [reflexivity|].
  intros op header.
  set (w' := with_new_link (new_link data None w) (code_draws data) w).
  assert (Hu' : unique_codes (shortened_links (db w')))
    by (apply unique_codes_append; auto).
  assert (Hin' : In (new_link data None w) (shortened_links (db w')))
    by (apply in_or_app; right; now left).
  rewrite app_owner_request.
  destruct (fst (get_current_user (security header) w'))
    as [e|user] eqn:Hwho.
  - split; [|reflexivity].
    intros body. destruct e as [status detail| | | | | |];
      try discriminate.
    destruct (get_current_user_401 _ _ _ _ Hwho) as [-> _]. discriminate.
  - unfold serve.
    change (chosen_code data w)
      with (ShortenedLink.short_code (new_link data None w)).
    rewrite (denied_when_not_owned op (new_link data None w) user w' Hu' Hin')
      by discriminate.
    split; [intros body; discriminate | reflexivity].
Qed.

Lemma anonymous_link_stays_closed_witness :
  fst (app (auth := Demo.auth) (builtins := Demo.builtins)
           (PostShorten None "http://sho.rt/"
              (mkShorten "https://example.net" (Some "free") None))
           (Demo.world [Demo.abc]))
  = HTTP 200 (JObj [("short_url", JStr "http://sho.rt/free");
                    ("created_by", JStr "anonymous")]).
Proof.
  exact (proj1 (anonymous_link_stays_closed (auth := Demo.auth)
           (builtins := Demo.builtins) None "http://sho.rt/"
           (mkShorten "https://example.net" (Some "free") None)
           (Demo.world [Demo.abc])
           ltac:(repeat constructor; simpl; intuition discriminate)
           ltac:(simpl; intuition discriminate) eq_refl)).
Defined.
